(** * paperwork_backend.fs : a shallow embedding of the Gio file-system layer

    The development follows [src/paperwork_backend/fs.py]:

    - [GioFileAdapter]      the raw byte stream over one Gio handle,
    - [GioUTF8FileAdapter]  the text stream layered over it,
    - [GioFileSystem]       the facade ([safe], [unsafe], [open], [rename],
                            [copy], ...).

    Python values are modelled as follows.  A [str] is the list of its code
    points, a [bytes] object the list of its byte values (both [list Z]).
    Exceptions are an inductive type, and every method that touches the
    backend is a computation in a state-and-exception monad over a [World]
    that holds the resources, the open backend streams and the log of the
    backend primitives that were invoked. *)

From Stdlib Require Import ZArith Lia List String Ascii Bool.
From stdpp Require Import base list gmap.

Local Open Scope Z_scope.

(** ** Python strings and bytes *)

Abbreviation pystr := (list Z).
Abbreviation pybytes := (list Z).

(** Code points of a literal written in the source. *)
Definition lit (s : string) : pystr :=
  List.map (fun a => Z.of_N (N_of_ascii a)) (list_ascii_of_string s).

Definition is_code_point (c : Z) : Prop := 0 <= c <= 1114111.
Definition is_surrogate (c : Z) : bool := (55296 <=? c) && (c <=? 57343).
Definition is_byte (b : Z) : Prop := 0 <= b <= 255.
Definition is_ascii (c : Z) : bool := (0 <=? c) && (c <? 128).

(** [s.startswith(p)] *)
Fixpoint startswith (p s : list Z) : bool :=
  match p, s with
  | [], _ => true
  | _ :: _, [] => false
  | x :: p', y :: s' => (x =? y) && startswith p' s'
  end.

(** [sub in s] on strings: [sub] occurs as a contiguous slice of [s]. *)
Fixpoint contains (sub s : list Z) : bool :=
  startswith sub s ||
  match s with
  | [] => false
  | _ :: s' => contains sub s'
  end.

(** The list without its longest prefix of elements that satisfy [f]. *)
Fixpoint drop_while (f : Z -> bool) (l : list Z) : list Z :=
  match l with
  | [] => []
  | x :: l' => if f x then drop_while f l' else l
  end.

(** Prepend [x] to the segment under construction. *)
Definition cons_head (x : Z) (segs : list (list Z)) : list (list Z) :=
  match segs with
  | cur :: more => (x :: cur) :: more
  | [] => [[x]]
  end.

(** [s.split(sep)] for a non-empty [sep]: cut at the leftmost occurrences of
    [sep], which never overlap.  [skip] counts the elements of a matched
    separator that are still to be passed over. *)
Fixpoint split_from (sep : list Z) (skip : nat) (s : list Z) : list (list Z) :=
  match s with
  | [] => [[]]
  | x :: s' =>
      match skip with
      | S k => split_from sep k s'
      | O =>
          if startswith sep s
          then [] :: split_from sep (Nat.pred (List.length sep)) s'
          else cons_head x (split_from sep 0 s')
      end
  end.

(** ** Exceptions and the computation monad *)

Inductive gerror :=
| G_NOT_FOUND
| G_EXISTS
| G_INVALID_ARGUMENT
| G_CLOSED.

Inductive os_arg :=
| of_gerror (g : gerror)
| of_message (m : string).

(** [IOError] is an alias of [OSError] in Python 3. *)
Inductive exn :=
| GError (g : gerror)
| OSError (a : os_arg)
| AssertionError
| NameError (name : string)
| AttributeError (attr : string)
| KeyError (key : Z)
| ValueError (m : string)
| UnicodeEncodeError
| UnicodeDecodeError
| IndexError
| TypeError
| Exception (m : string).

Abbreviation IOError := OSError (only parsing).

Inductive res (A : Type) :=
| Ok (a : A)
| Raise (e : exn).
Arguments Ok {A} a.
Arguments Raise {A} e.

Definition res_bind {A B} (r : res A) (k : A -> res B) : res B :=
  match r with
  | Ok a => k a
  | Raise e => Raise e
  end.

(** [s.split(sep)]; an empty separator raises. *)
Definition split (sep s : list Z) : res (list (list Z)) :=
  match sep with
  | [] => Raise (ValueError "empty separator")
  | _ :: _ => Ok (split_from sep 0 s)
  end.

(** ** UTF-8 (the [str.encode] and [bytes.decode] codecs) *)

Module Utf8.

(** One code point, encoded strictly: surrogates are refused. *)
Definition encode_cp (c : Z) : option pybytes :=
  if c <? 128 then Some [c]
  else if c <? 2048 then Some [192 + c / 64; 128 + c mod 64]
  else if c <? 65536 then
    if is_surrogate c then None
    else Some [224 + c / 4096; 128 + (c / 64) mod 64; 128 + c mod 64]
  else Some [240 + c / 262144; 128 + (c / 4096) mod 64;
             128 + (c / 64) mod 64; 128 + c mod 64].

(** [s.encode("utf-8", "strict")] *)
Fixpoint encode (s : pystr) : res pybytes :=
  match s with
  | [] => Ok []
  | c :: s' =>
      match encode_cp c with
      | None => Raise UnicodeEncodeError
      | Some e => res_bind (encode s') (fun bs => Ok (e ++ bs))
      end
  end.

Definition is_cont (b : Z) : bool := (128 <=? b) && (b <? 192).

(** Second byte of a three-byte sequence: no overlong form, no surrogate. *)
Definition second_of_3 (b1 b2 : Z) : bool :=
  is_cont b2 && negb (if b2 <? 160 then b1 =? 224 else b1 =? 237).

(** Second byte of a four-byte sequence: no overlong form, at most U+10FFFF. *)
Definition second_of_4 (b1 b2 : Z) : bool :=
  is_cont b2 && negb (if b2 <? 144 then b1 =? 240 else b1 =? 244).

(** The decoder's scan: [Some c] for a decoded code point, [None] for one
    decoding error.  After an error the scan resumes behind the longest
    prefix that could still have started a sequence; an input that ends inside
    a sequence is a single error. *)
Fixpoint scan (bs : pybytes) : list (option Z) :=
  match bs with
  | [] => []
  | b1 :: r1 =>
      if b1 <? 128 then Some b1 :: scan r1
      else if b1 <? 194 then None :: scan r1
      else if b1 <? 224 then
        match r1 with
        | [] => [None]
        | b2 :: r2 =>
            if is_cont b2
            then Some ((b1 - 192) * 64 + (b2 - 128)) :: scan r2
            else None :: scan r1
        end
      else if b1 <? 240 then
        match r1 with
        | [] => [None]
        | b2 :: r2 =>
            if second_of_3 b1 b2 then
              match r2 with
              | [] => [None]
              | b3 :: r3 =>
                  if is_cont b3
                  then Some ((b1 - 224) * 4096 + (b2 - 128) * 64 + (b3 - 128))
                         :: scan r3
                  else None :: scan r2
              end
            else None :: scan r1
        end
      else if b1 <? 245 then
        match r1 with
        | [] => [None]
        | b2 :: r2 =>
            if second_of_4 b1 b2 then
              match r2 with
              | [] => [None]
              | b3 :: r3 =>
                  if is_cont b3 then
                    match r3 with
                    | [] => [None]
                    | b4 :: r4 =>
                        if is_cont b4
                        then Some ((b1 - 240) * 262144 + (b2 - 128) * 4096
                                   + (b3 - 128) * 64 + (b4 - 128)) :: scan r4
                        else None :: scan r3
                    end
                  else None :: scan r2
              end
            else None :: scan r1
        end
      else None :: scan r1
  end.

(** [bs.decode("utf-8", "replace")]: every error becomes U+FFFD. *)
Definition decode_replace (bs : pybytes) : pystr :=
  List.map (fun o => match o with Some c => c | None => 65533 end) (scan bs).

(** [bs.decode("utf-8")]: the first error raises. *)
Fixpoint strict (items : list (option Z)) : res pystr :=
  match items with
  | [] => Ok []
  | Some c :: more => res_bind (strict more) (fun s => Ok (c :: s))
  | None :: _ => Raise UnicodeDecodeError
  end.

Definition decode (bs : pybytes) : res pystr := strict (scan bs).

End Utf8.

(** ** urllib.parse: [quote] and [unquote] *)

Module Urllib.

Definition percent : Z := 37.

(** The bytes [quote] never escapes: letters, digits and [_.-~]. *)
Definition always_safe (b : Z) : bool :=
  ((65 <=? b) && (b <=? 90)) || ((97 <=? b) && (b <=? 122))
  || ((48 <=? b) && (b <=? 57))
  || (b =? 95) || (b =? 46) || (b =? 45) || (b =? 126).

Definition member (b : Z) (l : list Z) : bool := existsb (Z.eqb b) l.

(** Upper-case hexadecimal digit, as the format [%02X] prints it. *)
Definition hexdigit (n : Z) : Z := if n <? 10 then 48 + n else 55 + n.

Definition quoter (safe : pybytes) (b : Z) : pystr :=
  if always_safe b || member b safe then [b]
  else [percent; hexdigit (b / 16); hexdigit (b mod 16)].

Definition quote_from_bytes (bs safe : pybytes) : pystr :=
  List.concat (List.map (quoter safe) bs).

(** [quote(string)] with the defaults [safe='/'], UTF-8, strict errors. *)
Definition quote (s : pystr) : res pystr :=
  res_bind (Utf8.encode s) (fun bs => Ok (quote_from_bytes bs [47])).

(** Value of a hexadecimal digit of either case. *)
Definition hexval (c : Z) : option Z :=
  if (48 <=? c) && (c <=? 57) then Some (c - 48)
  else if (65 <=? c) && (c <=? 70) then Some (c - 55)
  else if (97 <=? c) && (c <=? 102) then Some (c - 87)
  else None.

(** One piece that followed a percent sign: two hexadecimal digits give a
    byte, anything else leaves the percent sign in place. *)
Definition unquote_item (item : pybytes) : pybytes :=
  match item with
  | h :: l :: rest =>
      match hexval h, hexval l with
      | Some a, Some b => (a * 16 + b) :: rest
      | _, _ => percent :: item
      end
  | _ => percent :: item
  end.

(** [unquote_to_bytes]: split at the percent signs and decode each piece. *)
Definition unquote_to_bytes (s : pybytes) : pybytes :=
  match split_from [percent] 0 s with
  | [] => []
  | first :: items => first ++ List.concat (List.map unquote_item items)
  end.

(** The same decoding as one pass from left to right. *)
Fixpoint unquote_scan (s : pybytes) : pybytes :=
  match s with
  | [] => []
  | x :: s' =>
      if x =? percent then
        match s' with
        | h :: l :: rest =>
            match hexval h, hexval l with
            | Some a, Some b => (a * 16 + b) :: unquote_scan rest
            | _, _ => x :: unquote_scan s'
            end
        | _ => x :: unquote_scan s'
        end
      else x :: unquote_scan s'
  end.

(** The maximal runs of ASCII and of non-ASCII code points of a string, as
    the regular expression [([\x00-\x7f]+)] splits it. *)
Fixpoint ascii_runs (s : pystr) : list (bool * pystr) :=
  match s with
  | [] => []
  | c :: s' =>
      match ascii_runs s' with
      | (b, run) :: more =>
          if Bool.eqb b (is_ascii c) then (b, c :: run) :: more
          else (is_ascii c, [c]) :: (b, run) :: more
      | [] => [(is_ascii c, [c])]
      end
  end.

Definition unquote_run (r : bool * pystr) : pystr :=
  if fst r then Utf8.decode_replace (unquote_to_bytes (snd r)) else snd r.

(** [unquote(string)] with the defaults UTF-8 and [errors='replace']: only
    the ASCII runs are unquoted; a string without percent sign is returned
    as it is. *)
Definition unquote (s : pystr) : pystr :=
  if negb (member percent s) then s
  else List.concat (List.map unquote_run (ascii_runs s)).

End Urllib.

(** ** The host: what the process finds around it *)

(** [canon] is the resource a URI designates for Gio (two URIs name the same
    resource exactly when their canonical forms coincide); [os_linesep] is
    [os.linesep]. *)
Class Host := {
  canon : pystr -> pystr;
  os_linesep : pystr
}.

(** A POSIX host on which every URI is already canonical. *)
Definition posix_host : Host := {| canon := fun u => u; os_linesep := [10] |}.

(** A Windows host. *)
Definition nt_host : Host := {| canon := fun u => u; os_linesep := [13; 10] |}.

(** ** The Gio backend *)

Module Gio.

(** [Gio.File]: a name for a resource; building one performs no I/O. *)
Record File := { uri : pystr }.

Definition new_for_uri (u : pystr) : File := {| uri := u |}.

Definition handle := nat.

(** An opened resource and its cursor.  The input and the output side of a
    read-write stream share one. *)
Record channel := { ch_key : pystr; ch_pos : Z }.

Inductive stream_kind :=
| InputStream
| OutputStream
| IOStream (input output : handle).

Record gstream := { st_chan : nat; st_kind : stream_kind; st_closed : bool }.

Inductive seek_type := SeekCur | SeekSet | SeekEnd.

Inductive copy_flags := FlagsNone | AllMetadata.

Inductive create_flags := CreateNone | CreatePrivate | CreateReplaceDestination.

(** The backend primitives, as they appear in the log. *)
Inductive event :=
| QueryInfo (f : File)
| QueryExists (f : File)
| OpenRead (f : File)
| OpenReadwrite (f : File)
| CreateReadwrite (f : File)
| Seek (h : handle) (offset : Z) (whence : seek_type)
| Tell (h : handle)
| ReadBytes (h : handle) (count : Z)
| WriteAll (h : handle) (data : pybytes)
| Close (h : handle)
| Move (src dst : File) (flags : copy_flags)
| Copy (src dst : File) (flags : copy_flags).

Record World := {
  files : gmap pystr pybytes;
  channels : list channel;
  streams : list gstream;
  trace : list event
}.

Definition set_files (fs : gmap pystr pybytes) (w : World) : World :=
  {| files := fs; channels := channels w; streams := streams w;
     trace := trace w |}.
Definition set_channels (cs : list channel) (w : World) : World :=
  {| files := files w; channels := cs; streams := streams w;
     trace := trace w |}.
Definition set_streams (ss : list gstream) (w : World) : World :=
  {| files := files w; channels := channels w; streams := ss;
     trace := trace w |}.
Definition set_trace (t : list event) (w : World) : World :=
  {| files := files w; channels := channels w; streams := streams w;
     trace := t |}.

(** Computations: a result or an exception, and the world afterwards. *)
Definition M (A : Type) : Type := World -> res A * World.

Definition ret {A} (a : A) : M A := fun w => (Ok a, w).
Definition raise {A} (e : exn) : M A := fun w => (Raise e, w).
Definition bind {A B} (m : M A) (k : A -> M B) : M B :=
  fun w => match m w with
           | (Ok a, w') => k a w'
           | (Raise e, w') => (Raise e, w')
           end.
Definition get : M World := fun w => (Ok w, w).
Definition modify (f : World -> World) : M unit := fun w => (Ok tt, f w).
Definition lift {A} (r : res A) : M A := fun w => (r, w).

End Gio.

Declare Scope py_scope.
Delimit Scope py_scope with py.
Notation "x <- m ;; k" := (Gio.bind m (fun x => k))
  (at level 100, m at next level, right associativity) : py_scope.
Notation "m ;;; k" := (Gio.bind m (fun _ => k))
  (at level 100, right associativity) : py_scope.
Local Open Scope py_scope.

(** *** The backend primitives *)

Module GioOps.
Import Gio.

Section Primitives.
Context `{Host}.

Definition key_of (f : File) : pystr := canon (uri f).

Definition log (e : event) : M unit :=
  modify (fun w => set_trace (trace w ++ [e]) w).

Definition content (w : World) (key : pystr) : pybytes :=
  match files w !! key with
  | Some c => c
  | None => []
  end.

(** [f.query_info(standard::size).get_size()] *)
Definition query_info_size (f : File) : M Z :=
  log (QueryInfo f) ;;;
  w <- get ;;
  match files w !! key_of f with
  | Some c => ret (Z.of_nat (List.length c))
  | None => raise (GError G_NOT_FOUND)
  end.

(** [f.query_exists()] *)
Definition query_exists (f : File) : M bool :=
  log (QueryExists f) ;;;
  w <- get ;;
  ret (match files w !! key_of f with Some _ => true | None => false end).

Definition new_channel (key : pystr) : M nat :=
  w <- get ;;
  modify (set_channels (channels w ++ [{| ch_key := key; ch_pos := 0 |}])) ;;;
  ret (List.length (channels w)).

Definition new_stream (c : nat) (k : stream_kind) : M handle :=
  w <- get ;;
  modify (set_streams
            (streams w ++ [{| st_chan := c; st_kind := k; st_closed := false |}])) ;;;
  ret (List.length (streams w)).

(** [f.read()]: a [FileInputStream] on an existing resource. *)
Definition read (f : File) : M handle :=
  log (OpenRead f) ;;;
  w <- get ;;
  match files w !! key_of f with
  | None => raise (GError G_NOT_FOUND)
  | Some _ => c <- new_channel (key_of f) ;; new_stream c InputStream
  end.

(** A [FileIOStream] with its input and output sides on one cursor. *)
Definition new_iostream (key : pystr) : M handle :=
  c <- new_channel key ;;
  i <- new_stream c InputStream ;;
  o <- new_stream c OutputStream ;;
  new_stream c (IOStream i o).

(** [f.open_readwrite()]: the resource must exist. *)
Definition open_readwrite (f : File) : M handle :=
  log (OpenReadwrite f) ;;;
  w <- get ;;
  match files w !! key_of f with
  | None => raise (GError G_NOT_FOUND)
  | Some _ => new_iostream (key_of f)
  end.

(** [f.create_readwrite(flags)]: the resource must not exist; it is created
    empty.  The flags are a required argument: a call that passes none is
    refused by the binding with [TypeError], and the backend is not
    reached. *)
Definition create_readwrite (f : File) (flags : option create_flags) : M handle :=
  match flags with
  | None => raise TypeError
  | Some _ =>
      log (CreateReadwrite f) ;;;
      w <- get ;;
      match files w !! key_of f with
      | Some _ => raise (GError G_EXISTS)
      | None =>
          modify (set_files (<[key_of f := []]> (files w))) ;;;
          new_iostream (key_of f)
      end
  end.

Definition the_stream (h : handle) : M gstream :=
  w <- get ;;
  match streams w !! h with
  | Some s => if st_closed s then raise (GError G_CLOSED) else ret s
  | None => raise (GError G_CLOSED)
  end.

Definition the_channel (s : gstream) : M channel :=
  w <- get ;;
  match channels w !! st_chan s with
  | Some c => ret c
  | None => raise (GError G_CLOSED)
  end.

Definition set_pos (s : gstream) (c : channel) (pos : Z) : M unit :=
  w <- get ;;
  modify (set_channels
            (<[st_chan s := {| ch_key := ch_key c; ch_pos := pos |}]> (channels w))).

(** [io.get_input_stream()] and [io.get_output_stream()] *)
Definition get_input_stream (h : handle) : M handle :=
  w <- get ;;
  match st_kind <$> streams w !! h with
  | Some (IOStream i _) => ret i
  | _ => raise (AttributeError "get_input_stream")
  end.

Definition get_output_stream (h : handle) : M handle :=
  w <- get ;;
  match st_kind <$> streams w !! h with
  | Some (IOStream _ o) => ret o
  | _ => raise (AttributeError "get_output_stream")
  end.

(** [stream.seek(offset, type)]: the new position must not be negative. *)
Definition seek (h : handle) (offset : Z) (whence : seek_type) : M unit :=
  log (Seek h offset whence) ;;;
  s <- the_stream h ;;
  c <- the_channel s ;;
  w <- get ;;
  let base := match whence with
              | SeekSet => 0
              | SeekCur => ch_pos c
              | SeekEnd => Z.of_nat (List.length (content w (ch_key c)))
              end in
  if base + offset <? 0 then raise (GError G_INVALID_ARGUMENT)
  else set_pos s c (base + offset).

(** [stream.tell()] *)
Definition tell (h : handle) : M Z :=
  log (Tell h) ;;;
  s <- the_stream h ;;
  c <- the_channel s ;;
  ret (ch_pos c).

(** [stream.read_bytes(count).get_data()]: at most [count] bytes from the
    cursor on, fewer at the end of the data.  A request for no byte at all
    is answered at once with the empty byte string: the stream is not looked
    at, so this also holds on a closed one. *)
Definition read_bytes (h : handle) (count : Z) : M pybytes :=
  log (ReadBytes h count) ;;;
  if count =? 0 then ret []
  else
    s <- the_stream h ;;
    c <- the_channel s ;;
    w <- get ;;
    let data := take (Z.to_nat count)
                  (drop (Z.to_nat (ch_pos c)) (content w (ch_key c))) in
    set_pos s c (ch_pos c + Z.of_nat (List.length data)) ;;;
    ret data.

(** The data after [b] has been written at position [pos]; a gap behind the
    end of the data reads as zero bytes. *)
Definition overwrite (old : pybytes) (pos : nat) (b : pybytes) : pybytes :=
  take pos old ++ replicate (pos - List.length old)%nat 0
  ++ b ++ drop (pos + List.length b)%nat old.

(** [stream.write_all(b)]: the whole buffer, in one call. *)
Definition write_all (h : handle) (b : pybytes) : M (bool * Z) :=
  log (WriteAll h b) ;;;
  s <- the_stream h ;;
  c <- the_channel s ;;
  w <- get ;;
  modify (set_files (<[ch_key c :=
            overwrite (content w (ch_key c)) (Z.to_nat (ch_pos c)) b]> (files w))) ;;;
  set_pos s c (ch_pos c + Z.of_nat (List.length b)) ;;;
  ret (true, Z.of_nat (List.length b)).

Definition mark_closed (h : handle) (ss : list gstream) : list gstream :=
  match ss !! h with
  | Some s =>
      <[h := {| st_chan := st_chan s; st_kind := st_kind s; st_closed := true |}]> ss
  | None => ss
  end.

(** [stream.close()]: closing twice is not an error; closing a read-write
    stream closes both of its sides. *)
Definition close (h : handle) : M unit :=
  log (Close h) ;;;
  w <- get ;;
  let ss := mark_closed h (streams w) in
  modify (set_streams
            (match st_kind <$> streams w !! h with
             | Some (IOStream i o) => mark_closed o (mark_closed i ss)
             | _ => ss
             end)).

(** [a.equal(b)] *)
Definition equal (a b : File) : bool :=
  bool_decide (key_of a = key_of b).

(** [src.move(dst, NONE)]: the source must exist and the destination must
    not. *)
Definition move (src dst : File) (flags : copy_flags) : M unit :=
  log (Move src dst flags) ;;;
  w <- get ;;
  match files w !! key_of src, files w !! key_of dst with
  | None, _ => raise (GError G_NOT_FOUND)
  | Some _, Some _ => raise (GError G_EXISTS)
  | Some c, None =>
      modify (set_files (<[key_of dst := c]> (delete (key_of src) (files w))))
  end.

(** [src.copy(dst, ALL_METADATA)] *)
Definition copy (src dst : File) (flags : copy_flags) : M unit :=
  log (Copy src dst flags) ;;;
  w <- get ;;
  match files w !! key_of src, files w !! key_of dst with
  | None, _ => raise (GError G_NOT_FOUND)
  | Some _, Some _ => raise (GError G_EXISTS)
  | Some c, None => modify (set_files (<[key_of dst := c]> (files w)))
  end.

End Primitives.
End GioOps.

(** ** Python-level helpers *)

Section PythonHelpers.
Import Gio.

(** [try: m  except GLib.GError as exc: handler(exc)]; any other exception
    passes through. *)
Definition try_except_GError {A} (m : M A) (handler : gerror -> M A) : M A :=
  fun w => match m w with
           | (Raise (GError g), w') => handler g w'
           | r => r
           end.

(** [assert(b)] *)
Definition py_assert (b : bool) : M unit :=
  if b then ret tt else raise AssertionError.

(** Calling a method on an attribute that may hold [None]. *)
Definition attr (o : option handle) (method : string) : M handle :=
  match o with
  | Some h => ret h
  | None => raise (AttributeError method)
  end.

(** [a is b] for attributes that hold a stream object or [None]. *)
Definition same_object (a b : option handle) : bool :=
  match a, b with
  | Some x, Some y => Nat.eqb x y
  | None, None => true
  | _, _ => false
  end.

(** The names a function body can read: a [str], or some other object. *)
Inductive pyvalue :=
| VStr (s : pystr)
| VObject (name : string).

(** The names bound at module level in [fs.py]. *)
Definition module_names : list string :=
  ["io"; "logging"; "os"; "urllib"; "Gio"; "GLib"; "logger";
   "GioFileAdapter"; "GioUTF8FileAdapter"; "GioFileSystem"]%string.

Definition local_lookup (locals : list (string * pyvalue)) (name : string)
  : option pyvalue :=
  snd <$> List.find (fun b => String.eqb (fst b) name) locals.

(** Reading a name: the function's locals, then the module; the names that
    the modelled bodies read are not builtins. *)
Definition load_name (locals : list (string * pyvalue)) (name : string)
  : res pyvalue :=
  match local_lookup locals name with
  | Some v => Ok v
  | None =>
      if existsb (String.eqb name) module_names then Ok (VObject name)
      else Raise (NameError name)
  end.

(** [Gio.File.new_for_uri(v)] wants a [str]. *)
Definition file_for (v : pyvalue) : res File :=
  match v with
  | VStr s => Ok (new_for_uri s)
  | VObject _ => Raise TypeError
  end.

End PythonHelpers.

(** String literals of the source. *)
Definition str_r : pystr := Eval cbv in lit "r".
Definition str_w : pystr := Eval cbv in lit "w".
Definition str_a : pystr := Eval cbv in lit "a".
Definition str_b : pystr := Eval cbv in lit "b".
Definition str_nl : pystr := [10].
Definition str_sep : pystr := Eval cbv in lit "://".
Definition str_file : pystr := Eval cbv in lit "file://".

(** [os.SEEK_SET], [os.SEEK_CUR], [os.SEEK_END] *)
Definition SEEK_SET : Z := 0.
Definition SEEK_CUR : Z := 1.
Definition SEEK_END : Z := 2.

(** ** class GioFileAdapter(io.RawIOBase) *)

Module GioFileAdapter.
Import Gio.

Record t := {
  gfile : File;
  mode : pystr;
  size : Z;
  gfd : option handle;
  gin : option handle;
  gout : option handle;
  closed : bool
}.

Section Methods.
Context `{Host}.

Definition seek (self : t) (offset : Z) (whence : Z) : M unit :=
  whence' <- (if whence =? SEEK_CUR then ret SeekCur
              else if whence =? SEEK_END then ret SeekEnd
              else if whence =? SEEK_SET then ret SeekSet
              else raise (KeyError whence)) ;;
  h <- attr (gfd self) "seek" ;;
  GioOps.seek h offset whence'.

Definition __init__ (gfile : File) (mode : pystr) : M t :=
  size <- (if contains str_w mode then ret 0
           else try_except_GError (GioOps.query_info_size gfile)
                  (fun exc => raise (IOError (of_gerror exc)))) ;;
  hs <- (if contains str_r mode then
           h <- GioOps.read gfile ;;
           ret (Some h, Some h, None)
         else if contains str_w mode || contains str_a mode then
           ex <- GioOps.query_exists gfile ;;
           gfd <- (if ex then GioOps.open_readwrite gfile
                   else GioOps.create_readwrite gfile None) ;;
           gin <- GioOps.get_input_stream gfd ;;
           gout <- GioOps.get_output_stream gfd ;;
           ret (Some gfd, Some gin, Some gout)
         else ret (None, None, None)) ;;
  let self := {| gfile := gfile; mode := mode; size := size;
                 gfd := fst (fst hs); gin := snd (fst hs); gout := snd hs;
                 closed := false |} in
  (if contains str_a mode then seek self 0 SEEK_END else ret tt) ;;;
  ret self.

Definition readable (self : t) : bool := true.

Definition writable (self : t) : bool := contains str_w (mode self).

(** [read], where [readable_m] is the method that [self.readable()] resolves
    to. *)
Definition read_as (readable_m : t -> bool) (self : t) (size_arg : Z) : M pybytes :=
  if negb (readable_m self)
  then raise (OSError (of_message "File is not readable"))
  else
    let size_arg := if size_arg <? 0 then size self else size_arg in
    h <- attr (gin self) "read_bytes" ;;
    GioOps.read_bytes h size_arg.

Definition read (self : t) (size_arg : Z) : M pybytes :=
  read_as readable self size_arg.

Definition readall (self : t) : M pybytes := read self (-1).

Definition readlines (self : t) : M (list pybytes) :=
  data <- readall self ;;
  segs <- lift (split str_nl data) ;;
  ret (List.map (fun x => x ++ str_nl) segs).

Definition tell (self : t) : M Z :=
  h <- attr (gin self) "tell" ;;
  GioOps.tell h.

Definition flush (self : t) : M unit := ret tt.

Definition write (self : t) (b : pybytes) : M Z :=
  h <- attr (gout self) "write_all" ;;
  r <- GioOps.write_all h b ;;
  if negb (fst r) then raise (OSError (of_message "write_all() failed"))
  else ret (snd r).

(** [super().close()] records that the stream is closed. *)
Definition mark_closed (self : t) : t :=
  {| gfile := gfile self; mode := mode self; size := size self;
     gfd := gfd self; gin := gin self; gout := gout self; closed := true |}.

Definition close (self : t) : M t :=
  flush self ;;;
  let self := mark_closed self in
  (match gin self with
   | Some h => GioOps.close h
   | None => ret tt
   end) ;;;
  (match gout self with
   | Some h => GioOps.close h
   | None => ret tt
   end) ;;;
  (if negb (same_object (gfd self) (gin self))
   then h <- attr (gfd self) "close" ;; GioOps.close h
   else ret tt) ;;;
  ret self.

Definition readinto (self : t) (b : pybytes) : M Z :=
  raise (OSError (of_message "readinto() not supported on Gio.File objects")).

Definition readline (self : t) (size_arg : Z) : M pybytes :=
  raise (OSError (of_message "readline() not supported on Gio.File objects")).

Definition seekable (self : t) : bool := true.

Definition isatty (self : t) : bool := false.

(** [self.write(b"".join(lines))]; the count that [write] returns is
    dropped. *)
Definition writelines (self : t) (lines : list pybytes) : M unit :=
  write self (List.concat lines) ;;;
  ret tt.

Definition __enter__ (self : t) : t := self.

Definition __exit__ (self : t) : M t := close self.

End Methods.
End GioFileAdapter.

(** ** class GioUTF8FileAdapter(io.RawIOBase) *)

Module GioUTF8FileAdapter.
Import Gio.

Record t := { raw : GioFileAdapter.t }.

Section Methods.
Context `{Host}.

Definition __init__ (raw : GioFileAdapter.t) : t := {| raw := raw |}.

Definition readable (self : t) : bool := GioFileAdapter.readable (raw self).

Definition writable (self : t) : bool := GioFileAdapter.writable (raw self).

Definition read (self : t) (size_arg : Z) : M pystr :=
  r <- GioFileAdapter.read (raw self) size_arg ;;
  lift (Utf8.decode r).

Definition readall (self : t) : M pystr :=
  r <- GioFileAdapter.readall (raw self) ;;
  lift (Utf8.decode r).

Definition readlines (self : t) : M (list pystr) :=
  text <- readall self ;;
  segs <- lift (split os_linesep text) ;;
  let lines := List.map (fun x => x ++ str_nl) segs in
  match last lines with
  | None => raise IndexError
  | Some l =>
      if bool_decide (l = str_nl) then ret (removelast lines) else ret lines
  end.

Definition tell (self : t) : M Z := GioFileAdapter.tell (raw self).

Definition write (self : t) (b : pystr) : M Z :=
  b <- lift (Utf8.encode b) ;;
  GioFileAdapter.write (raw self) b.

Definition close (self : t) : M t :=
  r <- GioFileAdapter.close (raw self) ;;
  ret {| raw := r |}.

Definition readline (self : t) (hint : Z) : M pystr :=
  raise (OSError (of_message "readline() not supported on Gio.File objects")).

Definition seek (self : t) (offset whence : Z) : M unit :=
  GioFileAdapter.seek (raw self) offset whence.

Definition flush (self : t) : M unit := GioFileAdapter.flush (raw self).

Definition isatty (self : t) : bool := GioFileAdapter.isatty (raw self).

(** [[(line + os.linesep).encode("utf-8") for line in lines]]: the lines
    are encoded in order and the first that cannot be encoded raises. *)
Fixpoint encode_lines (lines : list pystr) : res (list pybytes) :=
  match lines with
  | [] => Ok []
  | line :: more =>
      res_bind (Utf8.encode (line ++ os_linesep)) (fun b =>
      res_bind (encode_lines more) (fun bs => Ok (b :: bs)))
  end.

Definition writelines (self : t) (lines : list pystr) : M unit :=
  lines <- lift (encode_lines lines) ;;
  GioFileAdapter.writelines (raw self) lines.

Definition __enter__ (self : t) : t := self.

Definition __exit__ (self : t) : M t := close self.

End Methods.
End GioUTF8FileAdapter.

(** ** class GioFileSystem *)

Module GioFileSystem.
Import Gio.

(** What [open] returns. *)
Inductive stream :=
| Binary (s : GioFileAdapter.t)
| Text (s : GioUTF8FileAdapter.t).

Definition raw_of (s : stream) : GioFileAdapter.t :=
  match s with
  | Binary a => a
  | Text a => GioUTF8FileAdapter.raw a
  end.

(** [os.path.dirname] where [os.path] is [posixpath]: everything up to and
    including the last slash, its trailing slashes stripped unless it consists
    of slashes only.  Nothing is percent-decoded. *)
Definition dirname (url : pystr) : pystr :=
  let head := rev (drop_while (fun c => negb (c =? 47)) (rev url)) in
  if negb (bool_decide (head = [])) && negb (forallb (Z.eqb 47) head)
  then rev (drop_while (Z.eqb 47) (rev head))
  else head.

Definition safe (uri : pystr) : res pystr :=
  if negb (contains str_sep uri)
  then res_bind (Urllib.quote uri) (fun q => Ok (str_file ++ q))
  else Ok uri.

Definition unsafe (uri : pystr) : res pystr :=
  if negb (contains str_sep uri) then Ok uri
  else if negb (startswith str_file uri)
  then Raise (Exception "TARGET URI SHOULD BE A LOCAL FILE")
  else
    let uri := drop (List.length str_file) uri in
    let uri := Urllib.unquote uri in
    Ok uri.

Section Methods.
Context `{Host}.

Definition open (uri : pystr) (mode : pystr) : M stream :=
  try_except_GError
    (raw <- GioFileAdapter.__init__ (new_for_uri uri) mode ;;
     if contains str_b mode then ret (Binary raw)
     else ret (Text (GioUTF8FileAdapter.__init__ raw)))
    (fun exc => raise (IOError (of_gerror exc))).

Definition rename (old_url new_url : pystr) : M unit :=
  try_except_GError
    (let old := new_for_uri old_url in
     let new := new_for_uri new_url in
     py_assert (negb (GioOps.equal old new)) ;;;
     GioOps.move old new FlagsNone)
    (fun exc => raise (IOError (of_gerror exc))).

(** The body reads the name [url], which neither the parameters nor the
    module bind. *)
Definition copy (old_url new_url : pystr) : M unit :=
  let locals := [("self", VObject "GioFileSystem");
                 ("old_url", VStr old_url);
                 ("new_url", VStr new_url)]%string in
  try_except_GError
    (old <- lift (res_bind (load_name locals "url") file_for) ;;
     new <- lift (res_bind (load_name locals "url") file_for) ;;
     GioOps.copy old new AllMetadata)
    (fun exc => raise (IOError (of_gerror exc))).

(** [f.query_exists()], the failure of the backend converted. *)
Definition exists_ (url : pystr) : M bool :=
  try_except_GError
    (GioOps.query_exists (new_for_uri url))
    (fun exc => raise (IOError (of_gerror exc))).

Definition getsize (url : pystr) : M Z :=
  try_except_GError
    (GioOps.query_info_size (new_for_uri url))
    (fun exc => raise (IOError (of_gerror exc))).

End Methods.
End GioFileSystem.

(** ** Observations on the log, and a sample world *)

Definition is_query_info (e : Gio.event) : bool :=
  match e with
  | Gio.QueryInfo _ => true
  | _ => false
  end.

Definition sample_uri : pystr := Eval cbv in lit "file:///a".
Definition other_uri : pystr := Eval cbv in lit "file:///b".
Definition str_rb : pystr := Eval cbv in lit "rb".
Definition str_wb : pystr := Eval cbv in lit "wb".
Definition str_ab : pystr := Eval cbv in lit "ab".

(** One resource, [sample_uri], holding the four bytes of ["a\nb\n"]; no
    stream is open and nothing was logged yet. *)
Definition sample_world : Gio.World :=
  {| Gio.files := {[ sample_uri := [97; 10; 98; 10] ]};
     Gio.channels := [];
     Gio.streams := [];
     Gio.trace := [] |}.

(** The stream that [GioFileAdapter(Gio.File.new_for_uri(sample_uri), "rb")]
    builds in [sample_world] on a POSIX host, and the world it leaves. *)
Definition sample_reader : GioFileAdapter.t :=
  {| GioFileAdapter.gfile := Gio.new_for_uri sample_uri;
     GioFileAdapter.mode := str_rb;
     GioFileAdapter.size := 4;
     GioFileAdapter.gfd := Some 0%nat;
     GioFileAdapter.gin := Some 0%nat;
     GioFileAdapter.gout := None;
     GioFileAdapter.closed := false |}.

Definition sample_reader_world : Gio.World :=
  snd (@GioFileAdapter.__init__ posix_host (Gio.new_for_uri sample_uri) str_rb
         sample_world).

(** * Proofs *)

(** ** Splitting *)

Lemma split_from_nonempty sep k s : split_from sep k s <> [].
Proof.
  revert k. induction s as [|x s IH]; intros k; simpl; [done|].
  destruct k; [|apply IH].
  destruct (startswith sep (x :: s)); [done|].
  specialize (IH 0%nat). destruct (split_from sep 0 s); done.
Qed.

Lemma split_from_skip sep k s :
  split_from sep k s = split_from sep 0 (drop k s).
Proof.
  revert k. induction s as [|x s IH]; intros k.
  - by destruct k.
  - destruct k; [done|]. simpl. apply IH.
Qed.

Lemma split_from_single c x s :
  split_from [c] 0 (x :: s) =
  if c =? x then [] :: split_from [c] 0 s else cons_head x (split_from [c] 0 s).
Proof. simpl. rewrite andb_true_r. done. Qed.

(** ** UTF-8 *)

Ltac zcases :=
  repeat match goal with
  | |- context [?a <? ?b] => destruct (Z.ltb_spec a b); try lia
  | |- context [?a <=? ?b] => destruct (Z.leb_spec a b); try lia
  | |- context [?a =? ?b] => destruct (Z.eqb_spec a b); try lia
  end.

Lemma is_cont_true b : 128 <= b < 192 -> Utf8.is_cont b = true.
Proof. unfold Utf8.is_cont. intros. zcases; try done. Qed.

Lemma scan_1 b rest : b < 128 -> Utf8.scan (b :: rest) = Some b :: Utf8.scan rest.
Proof. intros. cbn [Utf8.scan]. zcases; try done. Qed.

Lemma scan_2 b1 b2 rest :
  194 <= b1 < 224 -> 128 <= b2 < 192 ->
  Utf8.scan (b1 :: b2 :: rest)
  = Some ((b1 - 192) * 64 + (b2 - 128)) :: Utf8.scan rest.
Proof.
  intros. cbn [Utf8.scan]. rewrite is_cont_true by done. zcases; try done.
Qed.

Lemma scan_3 b1 b2 b3 rest :
  224 <= b1 < 240 -> Utf8.second_of_3 b1 b2 = true ->
  128 <= b3 < 192 ->
  Utf8.scan (b1 :: b2 :: b3 :: rest)
  = Some ((b1 - 224) * 4096 + (b2 - 128) * 64 + (b3 - 128)) :: Utf8.scan rest.
Proof.
  intros ? H2 ?. cbn [Utf8.scan]. rewrite H2, is_cont_true by done. zcases; try done.
Qed.

Lemma scan_4 b1 b2 b3 b4 rest :
  240 <= b1 < 245 -> Utf8.second_of_4 b1 b2 = true ->
  128 <= b3 < 192 -> 128 <= b4 < 192 ->
  Utf8.scan (b1 :: b2 :: b3 :: b4 :: rest)
  = Some ((b1 - 240) * 262144 + (b2 - 128) * 4096 + (b3 - 128) * 64 + (b4 - 128))
      :: Utf8.scan rest.
Proof.
  intros ? H2 ? ?. cbn [Utf8.scan]. rewrite H2, !is_cont_true by done. zcases; try done.
Qed.

Lemma utf8_encode_cp_scan c e rest :
  is_code_point c -> Utf8.encode_cp c = Some e ->
  Utf8.scan (e ++ rest) = Some c :: Utf8.scan rest.
Proof.
  unfold is_code_point, Utf8.encode_cp. intros Hc He.
  destruct (Z.ltb_spec c 128).
  { simplify_eq. cbn [app]. by apply scan_1. }
  destruct (Z.ltb_spec c 2048).
  { simplify_eq. cbn [app]. rewrite scan_2.
    - do 2 f_equal. Z.to_euclidean_division_equations; lia.
    - Z.to_euclidean_division_equations; lia.
    - Z.to_euclidean_division_equations; lia. }
  destruct (Z.ltb_spec c 65536).
  { destruct (is_surrogate c) eqn:Hs; [done|]. simplify_eq. cbn [app].
    unfold is_surrogate in Hs.
    assert (c < 55296 \/ 57343 < c) as Hns.
    { destruct (Z.leb_spec 55296 c), (Z.leb_spec c 57343); simpl in Hs; try done; lia. }
    rewrite scan_3.
    - do 2 f_equal. Z.to_euclidean_division_equations; lia.
    - Z.to_euclidean_division_equations; lia.
    - unfold Utf8.second_of_3. rewrite is_cont_true
        by (Z.to_euclidean_division_equations; lia).
      cbn [andb].
      destruct (Z.ltb_spec (128 + (c / 64) mod 64) 160);
      [destruct (Z.eqb_spec (224 + c / 4096) 224)
      |destruct (Z.eqb_spec (224 + c / 4096) 237)]; try done;
      exfalso; Z.to_euclidean_division_equations; lia.
    - Z.to_euclidean_division_equations; lia. }
  simplify_eq. cbn [app].
  rewrite scan_4.
  - do 2 f_equal. Z.to_euclidean_division_equations; lia.
  - Z.to_euclidean_division_equations; lia.
  - unfold Utf8.second_of_4. rewrite is_cont_true
      by (Z.to_euclidean_division_equations; lia).
    cbn [andb].
    destruct (Z.ltb_spec (128 + (c / 4096) mod 64) 144);
    [destruct (Z.eqb_spec (240 + c / 262144) 240)
    |destruct (Z.eqb_spec (240 + c / 262144) 244)]; try done;
    exfalso; Z.to_euclidean_division_equations; lia.
  - Z.to_euclidean_division_equations; lia.
  - Z.to_euclidean_division_equations; lia.
Qed.

Lemma utf8_encode_cp_bytes c e :
  is_code_point c -> Utf8.encode_cp c = Some e -> Forall is_byte e.
Proof.
  unfold is_code_point, Utf8.encode_cp, is_byte. intros Hc He.
  destruct (Z.ltb_spec c 128); [simplify_eq; repeat constructor; lia|].
  destruct (Z.ltb_spec c 2048);
    [simplify_eq; repeat constructor; Z.to_euclidean_division_equations; lia|].
  destruct (Z.ltb_spec c 65536).
  - destruct (is_surrogate c); [done|].
    simplify_eq; repeat constructor; Z.to_euclidean_division_equations; lia.
  - simplify_eq; repeat constructor; Z.to_euclidean_division_equations; lia.
Qed.

Lemma utf8_encode_bytes s bs :
  Forall is_code_point s -> Utf8.encode s = Ok bs -> Forall is_byte bs.
Proof.
  intros Hs. revert bs. induction Hs as [|c s Hc Hs IH]; intros bs; simpl.
  - intros [= <-]. constructor.
  - destruct (Utf8.encode_cp c) as [e|] eqn:He; [|done].
    destruct (Utf8.encode s) as [bs'|] eqn:Hbs; [|done]. simpl.
    intros [= <-]. apply Forall_app. split; [by eapply utf8_encode_cp_bytes|by apply IH].
Qed.

Lemma utf8_scan_encode s bs :
  Forall is_code_point s -> Utf8.encode s = Ok bs ->
  Utf8.scan bs = List.map Some s.
Proof.
  intros Hs. revert bs. induction Hs as [|c s Hc Hs IH]; intros bs; simpl.
  - by intros [= <-].
  - destruct (Utf8.encode_cp c) as [e|] eqn:He; [|done].
    destruct (Utf8.encode s) as [bs'|] eqn:Hbs; [|done]. simpl.
    intros [= <-]. rewrite (utf8_encode_cp_scan c e bs') by done.
    f_equal. by apply IH.
Qed.

Lemma utf8_decode_replace_encode s bs :
  Forall is_code_point s -> Utf8.encode s = Ok bs -> Utf8.decode_replace bs = s.
Proof.
  intros Hs He. unfold Utf8.decode_replace. rewrite (utf8_scan_encode s bs) by done.
  clear. induction s; simpl; congruence.
Qed.

Lemma utf8_decode_encode s bs :
  Forall is_code_point s -> Utf8.encode s = Ok bs -> Utf8.decode bs = Ok s.
Proof.
  intros Hs He. unfold Utf8.decode. rewrite (utf8_scan_encode s bs) by done.
  clear. induction s; simpl; [done|]. by rewrite IHs.
Qed.

Lemma utf8_encode_total s :
  Forall (fun c => is_surrogate c = false) s -> exists bs, Utf8.encode s = Ok bs.
Proof.
  induction 1 as [|c s Hc Hs [bs IH]]; simpl; [by eexists|].
  assert (exists e, Utf8.encode_cp c = Some e) as [e He].
  { unfold Utf8.encode_cp. rewrite Hc. repeat case_match; by eexists. }
  rewrite He, IH. simpl. by eexists.
Qed.

Lemma utf8_encode_surrogate s :
  Exists (fun c => is_surrogate c = true) s -> Utf8.encode s = Raise UnicodeEncodeError.
Proof.
  induction 1 as [c s Hc|c s Hs IH]; simpl.
  - unfold Utf8.encode_cp. rewrite Hc. unfold is_surrogate in Hc.
    apply andb_true_iff in Hc as [H1 H2].
    apply Z.leb_le in H1. apply Z.leb_le in H2.
    destruct (Z.ltb_spec c 128); [lia|]. destruct (Z.ltb_spec c 2048); [lia|].
    destruct (Z.ltb_spec c 65536); [done|lia].
  - rewrite IH. destruct (Utf8.encode_cp c); done.
Qed.

(** ** urllib.parse *)

Import Urllib.


Lemma hexval_not_percent c v : hexval c = Some v -> c <> percent.
Proof.
  unfold hexval, percent. intros Hv ->. simpl in Hv. done.
Qed.

Lemma unquote_to_bytes_other x s :
  x <> percent -> unquote_to_bytes (x :: s) = x :: unquote_to_bytes s.
Proof.
  intros Hx. unfold unquote_to_bytes. rewrite split_from_single.
  destruct (Z.eqb_spec percent x) as [E|_]; [congruence|].
  pose proof (split_from_nonempty [percent] 0 s) as Hne.
  destruct (split_from [percent] 0 s); done.
Qed.

Lemma unquote_to_bytes_percent s :
  unquote_to_bytes (percent :: s)
  = List.concat (List.map unquote_item (split_from [percent] 0 s)).
Proof. unfold unquote_to_bytes. by rewrite split_from_single. Qed.

Lemma unquote_items_other x s :
  x <> percent ->
  exists f its, split_from [percent] 0 s = f :: its /\
                split_from [percent] 0 (x :: s) = (x :: f) :: its.
Proof.
  intros Hx. rewrite split_from_single.
  destruct (Z.eqb_spec percent x) as [E|_]; [congruence|].
  pose proof (split_from_nonempty [percent] 0 s) as Hne.
  destruct (split_from [percent] 0 s) as [|f its]; [done|]. by exists f, its.
Qed.

(** The piece behind a percent sign that is not followed by two hexadecimal
    digits keeps its percent sign. *)
Lemma unquote_to_bytes_literal s :
  (forall h l rest a b, s = h :: l :: rest -> hexval h = Some a -> hexval l = Some b -> False) ->
  unquote_to_bytes (percent :: s) = percent :: unquote_to_bytes s.
Proof.
  intros Hs. rewrite unquote_to_bytes_percent. unfold unquote_to_bytes.
  pose proof (split_from_nonempty [percent] 0 s) as Hne.
  destruct (split_from [percent] 0 s) as [|f its] eqn:Hsp; [done|].
  cbn [List.map List.concat].
  enough (unquote_item f = percent :: f) as -> by done.
  destruct s as [|h [|l rest]].
  - simpl in Hsp. by simplify_eq.
  - rewrite split_from_single in Hsp.
    destruct (Z.eqb_spec percent h); simpl in Hsp; by simplify_eq.
  - rewrite split_from_single in Hsp.
    destruct (Z.eqb_spec percent h) as [Eh|Hh]; [by simplify_eq|].
    rewrite split_from_single in Hsp.
    destruct (Z.eqb_spec percent l) as [El|Hl].
    + simpl in Hsp. by simplify_eq.
    + pose proof (split_from_nonempty [percent] 0 rest) as Hne'.
      destruct (split_from [percent] 0 rest) as [|f' its']; [done|].
      simpl in Hsp. simplify_eq. simpl.
      destruct (hexval h) eqn:Eh', (hexval l) eqn:El'; try done.
      exfalso. by eapply Hs.
Qed.

Lemma unquote_to_bytes_escape h l rest a b :
  hexval h = Some a -> hexval l = Some b ->
  unquote_to_bytes (percent :: h :: l :: rest)
  = (a * 16 + b) :: unquote_to_bytes rest.
Proof.
  intros Hh Hl. rewrite unquote_to_bytes_percent.
  destruct (unquote_items_other l rest) as (f & its & Hr & Hlr);
    [by eapply hexval_not_percent|].
  destruct (unquote_items_other h (l :: rest)) as (f' & its' & Hr' & Hhr);
    [by eapply hexval_not_percent|].
  rewrite Hhr. rewrite Hlr in Hr'. simplify_eq.
  unfold unquote_to_bytes. rewrite Hr. simpl. by rewrite Hh, Hl.
Qed.

(** [unquote_to_bytes] is the left-to-right pass. *)
Lemma unquote_to_bytes_scan s : unquote_to_bytes s = unquote_scan s.
Proof.
  remember (List.length s) as n eqn:Hn. revert s Hn.
  induction n as [n IH] using lt_wf_ind. intros s ->.
  destruct s as [|x s]; [done|].
  cbn [unquote_scan].
  destruct (Z.eqb_spec x percent) as [->|Hx].
  - destruct s as [|h [|l rest]].
    + done.
    + rewrite unquote_to_bytes_literal by (intros; done).
      f_equal. eapply IH; [|done]. simpl; lia.
    + destruct (hexval h) as [a|] eqn:Hh; [destruct (hexval l) as [b|] eqn:Hl|].
      * rewrite (unquote_to_bytes_escape h l rest a b) by done.
        f_equal. eapply IH; [|done]. simpl; lia.
      * rewrite unquote_to_bytes_literal by (intros; simplify_eq).
        f_equal. eapply IH; [|done]. simpl; lia.
      * rewrite unquote_to_bytes_literal by (intros; simplify_eq).
        f_equal. eapply IH; [|done]. simpl; lia.
  - rewrite unquote_to_bytes_other by done.
    f_equal. eapply IH; [|done]. simpl; lia.
Qed.

Import Urllib.

Lemma hexval_hexdigit n : 0 <= n < 16 -> hexval (hexdigit n) = Some n.
Proof.
  intros Hn. unfold hexval, hexdigit.
  destruct (Z.ltb_spec n 10); zcases; f_equal; lia.
Qed.

Lemma hexdigit_ascii n : 0 <= n < 16 -> is_ascii (hexdigit n) = true.
Proof.
  intros Hn. unfold is_ascii, hexdigit. destruct (Z.ltb_spec n 10); zcases; done.
Qed.

Lemma unreserved_plain b :
  always_safe b || member b [47] = true -> b <> percent /\ is_ascii b = true.
Proof.
  unfold always_safe, member, percent, is_ascii. simpl. intros Hb.
  assert (b = 47 \/ 45 <= b <= 126 /\ b <> 47) as Hr.
  { destruct (Z.eqb_spec b 47); [by left|right].
    revert Hb. zcases; simpl; try done; intros _; lia. }
  split; [lia|]. zcases; done.
Qed.

Lemma unquote_scan_quoter b rest :
  is_byte b -> unquote_scan (quoter [47] b ++ rest) = b :: unquote_scan rest.
Proof.
  intros Hb. unfold quoter.
  destruct (always_safe b || member b [47]) eqn:Hs.
  - apply unreserved_plain in Hs as [Hp _]. cbn [app unquote_scan].
    destruct (Z.eqb_spec b percent); done.
  - cbn [app unquote_scan]. rewrite Z.eqb_refl.
    unfold is_byte in Hb.
    rewrite !hexval_hexdigit by (Z.to_euclidean_division_equations; lia).
    f_equal. Z.to_euclidean_division_equations; lia.
Qed.

Lemma unquote_quote_from_bytes bs :
  Forall is_byte bs -> unquote_to_bytes (quote_from_bytes bs [47]) = bs.
Proof.
  rewrite unquote_to_bytes_scan. unfold quote_from_bytes.
  induction 1 as [|b bs Hb Hbs IH]; [done|].
  cbn [List.map List.concat]. rewrite unquote_scan_quoter by done. by rewrite IH.
Qed.

Lemma quote_from_bytes_ascii bs :
  Forall is_byte bs -> Forall (fun c => is_ascii c = true) (quote_from_bytes bs [47]).
Proof.
  unfold quote_from_bytes. induction 1 as [|b bs Hb Hbs IH]; [constructor|].
  cbn [List.map List.concat]. apply Forall_app; split; [|done].
  unfold quoter. destruct (always_safe b || member b [47]) eqn:Hs.
  - apply unreserved_plain in Hs as [_ Ha]. by repeat constructor.
  - unfold is_byte in Hb.
    repeat constructor; try apply hexdigit_ascii;
      Z.to_euclidean_division_equations; lia.
Qed.

Lemma ascii_runs_ascii s :
  Forall (fun c => is_ascii c = true) s -> s <> [] -> ascii_runs s = [(true, s)].
Proof.
  induction 1 as [|c s Hc Hs IH]; [done|]. intros _.
  cbn [ascii_runs]. destruct s as [|c' s'].
  - simpl. by rewrite Hc.
  - rewrite IH by done. by rewrite Hc.
Qed.

Lemma unquote_scan_plain s : member percent s = false -> unquote_scan s = s.
Proof.
  unfold member. induction s as [|x s IH]; [done|].
  cbn [existsb unquote_scan].
  intros [Hx Hs]%orb_false_iff. rewrite Z.eqb_sym in Hx. rewrite Hx.
  f_equal. by apply IH.
Qed.

Lemma decode_replace_ascii s :
  Forall (fun c => is_ascii c = true) s -> Utf8.decode_replace s = s.
Proof.
  unfold Utf8.decode_replace. induction 1 as [|c s Hc Hs IH]; [done|].
  unfold is_ascii in Hc. apply andb_true_iff in Hc as [_ Hc%Z.ltb_lt].
  rewrite scan_1 by done. simpl. by rewrite IH.
Qed.

(** On an ASCII string, [unquote] is [unquote_to_bytes] followed by the
    decoding, whether or not the string holds a percent sign. *)
Lemma unquote_ascii s :
  Forall (fun c => is_ascii c = true) s ->
  unquote s = Utf8.decode_replace (unquote_to_bytes s).
Proof.
  intros Hs. unfold unquote. destruct (member percent s) eqn:Hp; simpl.
  - destruct s as [|c s]; [done|]. rewrite ascii_runs_ascii by done.
    simpl. by rewrite app_nil_r.
  - rewrite unquote_to_bytes_scan, unquote_scan_plain by done.
    by rewrite decode_replace_ascii.
Qed.

Lemma unquote_quote s q :
  Forall is_code_point s -> quote s = Ok q -> unquote q = s.
Proof.
  intros Hs. unfold quote. destruct (Utf8.encode s) as [bs|] eqn:He; [|done].
  simpl. intros [= <-].
  pose proof (utf8_encode_bytes s bs Hs He) as Hb.
  rewrite unquote_ascii by by apply quote_from_bytes_ascii.
  rewrite unquote_quote_from_bytes by done.
  by apply utf8_decode_replace_encode.
Qed.


Lemma contains_file_scheme q : contains str_sep (str_file ++ q) = true.
Proof. reflexivity. Qed.

Lemma startswith_file_scheme q : startswith str_file (str_file ++ q) = true.
Proof. reflexivity. Qed.

(** Claim C2, as amended.  Let [p] be a local path: a string of code points
    without scheme separator.  If UTF-8 can encode [p], that is, if [p] holds
    no surrogate code point, [unsafe (safe p)] returns [p]: the path is
    percent-encoded behind [file://] and decoded back exactly.  If [p] holds
    a surrogate, [safe p] raises [UnicodeEncodeError]. *)
Theorem unsafe_safe_roundtrip p :
  Forall is_code_point p ->
  contains str_sep p = false ->
  (Forall (fun c => is_surrogate c = false) p ->
   res_bind (GioFileSystem.safe p) GioFileSystem.unsafe = Ok p)
  /\ (Exists (fun c => is_surrogate c = true) p ->
      GioFileSystem.safe p = Raise UnicodeEncodeError).
Proof.
  intros Hp Hsep. split.
  - intros Hs. destruct (utf8_encode_total p Hs) as [bs He].
    assert (quote p = Ok (quote_from_bytes bs [47])) as Hq
      by (unfold quote; by rewrite He).
    unfold GioFileSystem.safe. rewrite Hsep, Hq. cbn [negb res_bind].
    unfold GioFileSystem.unsafe.
    rewrite contains_file_scheme, startswith_file_scheme. cbn [negb].
    change (drop (List.length str_file) (str_file ++ ?q)) with q.
    f_equal. by eapply unquote_quote.
  - intros Hs. unfold GioFileSystem.safe, quote. rewrite Hsep. cbn [negb].
    by rewrite (utf8_encode_surrogate p Hs).
Qed.

Lemma unsafe_safe_roundtrip_witness :
  res_bind (GioFileSystem.safe [47; 97; 32; 98; 37; 233; 8364])
    GioFileSystem.unsafe
  = Ok [47; 97; 32; 98; 37; 233; 8364]
  /\ GioFileSystem.safe [47; 97; 56448] = Raise UnicodeEncodeError.
Proof.
  split.
  - apply (proj1 (unsafe_safe_roundtrip [47; 97; 32; 98; 37; 233; 8364]
                    ltac:(repeat constructor; unfold is_code_point; lia)
                    eq_refl)).
    repeat constructor.
  - apply (proj2 (unsafe_safe_roundtrip [47; 97; 56448]
                    ltac:(repeat constructor; unfold is_code_point; lia)
                    eq_refl)).
    do 2 apply Exists_cons_tl. apply Exists_cons_hd. reflexivity.
Defined.

(** Claim C2 as stated fails: the path made of the lone surrogate U+DC80 has
    no scheme separator, yet [safe] raises [UnicodeEncodeError] on it, so
    the round trip does not return the path. *)
Lemma unsafe_safe_surrogate :
  ~ (forall p : pystr,
       Forall is_code_point p -> contains str_sep p = false ->
       res_bind (GioFileSystem.safe p) GioFileSystem.unsafe = Ok p).
Proof.
  intros Hall. specialize (Hall [56448]).
  assert (Forall is_code_point [56448]) as Hp
    by (repeat constructor; unfold is_code_point; lia).
  specialize (Hall Hp eq_refl). vm_compute in Hall. discriminate.
Qed.

(** ** The stream adapters and the facade *)

Import Gio.

Ltac unfold_gio :=
  unfold GioOps.query_info_size, GioOps.query_exists, GioOps.read,
    GioOps.open_readwrite, GioOps.create_readwrite, GioOps.new_iostream,
    GioOps.new_channel, GioOps.new_stream, GioOps.get_input_stream,
    GioOps.get_output_stream, GioOps.seek, GioOps.tell, GioOps.read_bytes,
    GioOps.write_all, GioOps.close, GioOps.move, GioOps.copy,
    GioOps.the_stream, GioOps.the_channel, GioOps.set_pos, GioOps.log,
    GioOps.key_of, GioOps.content,
    try_except_GError, py_assert, attr,
    Gio.bind, Gio.ret, Gio.raise, Gio.get, Gio.modify, Gio.lift in *.


Lemma lookup_fresh_0 {A} (l : list A) a rest : (l ++ a :: rest) !! List.length l = Some a.
Proof. apply list_lookup_middle. done. Qed.

Lemma lookup_fresh_1 {A} (l : list A) a b rest :
  (l ++ a :: b :: rest) !! S (List.length l) = Some b.
Proof.
  change (l ++ a :: b :: rest) with (l ++ [a] ++ b :: rest).
  rewrite app_assoc. apply list_lookup_middle. rewrite length_app. simpl. lia.
Qed.

Lemma lookup_fresh_2 {A} (l : list A) a b c rest :
  (l ++ a :: b :: c :: rest) !! S (S (List.length l)) = Some c.
Proof.
  change (l ++ a :: b :: c :: rest) with (l ++ [a; b] ++ c :: rest).
  rewrite app_assoc. apply list_lookup_middle. rewrite length_app. simpl. lia.
Qed.

Ltac norm_world :=
  unfold set_streams, set_channels, set_trace, set_files in *; cbn in *;
  rewrite ?length_app in *; cbn in *; rewrite <- ?app_assoc in *; cbn in *;
  rewrite ?Nat.add_1_r in *.


Lemma insert_fresh_0 {A} (l : list A) a x rest :
  <[List.length l := x]> (l ++ a :: rest) = l ++ x :: rest.
Proof. induction l as [|y l IH]; [done|]. cbn. f_equal. apply IH. Qed.

Lemma of_nat_ltb_0 n : (Z.of_nat n <? 0) = false.
Proof. apply Z.ltb_ge. lia. Qed.

Ltac fresh_lookups :=
  repeat (rewrite lookup_fresh_0 || rewrite lookup_fresh_1 || rewrite lookup_fresh_2
          || rewrite insert_fresh_0 || rewrite Z.add_0_r || rewrite of_nat_ltb_0).

Ltac exec :=
  repeat (progress (unfold_gio; cbn; norm_world; fresh_lookups)).


Section Backend.
Context `{Host}.

Lemma bind_ok {A B} (m : M A) (k : A -> M B) w a w' :
  m w = (Ok a, w') -> Gio.bind m k w = k a w'.
Proof. unfold Gio.bind. by intros ->. Qed.

Lemma bind_inv_ok {A B} (m : M A) (k : A -> M B) w b w' :
  Gio.bind m k w = (Ok b, w') ->
  exists a w0, m w = (Ok a, w0) /\ k a w0 = (Ok b, w').
Proof.
  unfold Gio.bind. destruct (m w) as [[a|e] w0]; [|done]. intros Hk. by exists a, w0.
Qed.

Lemma seek_spec self offset whence w r w' :
  GioFileAdapter.seek self offset whence w = (r, w') ->
  files w' = files w /\ streams w' = streams w.
Proof.
  unfold GioFileAdapter.seek. unfold_gio.
  repeat (case_match; cbn in *; simplify_eq); intros; simplify_eq; done.
Qed.

Lemma init_handles f mode w self w1 :
  GioFileAdapter.__init__ f mode w = (Ok self, w1) ->
  GioFileAdapter.mode self = mode /\ GioFileAdapter.gfile self = f /\
  GioFileAdapter.closed self = false /\
  if contains str_r mode then
    GioFileAdapter.gfd self = Some (List.length (streams w)) /\
    GioFileAdapter.gin self = Some (List.length (streams w)) /\
    GioFileAdapter.gout self = None
  else if contains str_w mode || contains str_a mode then
    GioFileAdapter.gfd self = Some (S (S (List.length (streams w)))) /\
    GioFileAdapter.gin self = Some (List.length (streams w)) /\
    GioFileAdapter.gout self = Some (S (List.length (streams w)))
  else
    GioFileAdapter.gfd self = None /\ GioFileAdapter.gin self = None /\
    GioFileAdapter.gout self = None.
Proof.
  unfold GioFileAdapter.__init__. intros Hinit.
  apply bind_inv_ok in Hinit as (sz & w0 & Hsz & Hinit).
  assert (streams w0 = streams w) as Hst.
  { destruct (contains str_w mode); unfold_gio; cbn in Hsz;
      repeat (case_match; cbn in *; simplify_eq); done. }
  apply bind_inv_ok in Hinit as (hs & w2 & Hhs & Hinit).
  apply bind_inv_ok in Hinit as ([] & w3 & Hsk & Hinit).
  unfold Gio.ret in Hinit. injection Hinit as <- <-.
  cbn [GioFileAdapter.mode GioFileAdapter.gfile
    GioFileAdapter.closed GioFileAdapter.gfd GioFileAdapter.gin GioFileAdapter.gout].
  split; [done|]. split; [done|]. split; [done|].
  clear Hsk Hsz. rewrite <- Hst. clear Hst.
  destruct (contains str_r mode).
  - unfold_gio. cbn in Hhs.
    repeat (case_match; cbn in *; simplify_eq). norm_world. done.
  - destruct (contains str_w mode || contains str_a mode).
    + revert Hhs. unfold Gio.bind at 1. unfold GioOps.query_exists at 1.
      unfold_gio. cbn.
      destruct (files w0 !! canon (uri f)) eqn:Hf; cbn; rewrite ?Hf; cbn.
      * norm_world. repeat (rewrite lookup_fresh_2; cbn). by intros [= <- <-].
      * norm_world. repeat (rewrite lookup_fresh_2; cbn). by intros [= <- <-].
    + unfold Gio.ret in Hhs. by simplify_eq.
Qed.

(** Claim C6.  Opening a URI whose resource does not exist in a mode that
    holds the read flag fails with an [IOError] (the backend's not-found
    failure, converted); no stream is returned, none is left open, and the
    resources are untouched. *)
Theorem open_read_absent uri mode w :
  contains str_r mode = true ->
  files w !! canon uri = None ->
  exists w',
    GioFileSystem.open uri mode w = (Raise (IOError (of_gerror G_NOT_FOUND)), w')
    /\ files w' = files w /\ streams w' = streams w.
Proof.
  intros Hr Hf. unfold GioFileSystem.open, GioFileAdapter.__init__.
  destruct (contains str_w mode) eqn:Hw; rewrite ?Hr; unfold_gio; cbn;
    rewrite Hf; eexists; (split; [reflexivity|done]).
Qed.

(** Claim C10.  When the mode holds the write flag, a successful
    construction caches the size 0 without a size query reaching the backend,
    and a [read(-1)] right after it returns the empty byte string, whatever
    the resource holds. *)
Theorem write_mode_size_zero f mode w self w1 :
  contains str_w mode = true ->
  GioFileAdapter.__init__ f mode w = (Ok self, w1) ->
  GioFileAdapter.size self = 0
  /\ List.filter is_query_info (trace w1) = List.filter is_query_info (trace w)
  /\ exists w2, GioFileAdapter.read self (-1) w1 = (Ok [], w2).
Proof.
  intros Hw. unfold GioFileAdapter.__init__, GioFileAdapter.seek,
    GioFileAdapter.read, GioFileAdapter.read_as, GioFileAdapter.readable.
  rewrite Hw.
  destruct (contains str_r mode), (contains str_a mode),
    (files w !! canon (uri f)) as [c|] eqn:Hf;
    exec; rewrite ?Hf; exec; rewrite ?Hf; exec; try done.
  all: intros [= <- <-]; exec; rewrite ?List.filter_app; cbn; rewrite ?app_nil_r;
    (split; [done|]); (split; [done|]); rewrite ?Hf; exec; eauto.
Qed.

(** Claim C1 (the code's defect).  [copy] never reaches the backend: its body
    reads the name [url], bound neither by the parameters [old_url] and
    [new_url] nor by the module, so every call raises [NameError] and leaves
    the world as it was. *)
Theorem copy_reads_unbound_name old_url new_url w :
  GioFileSystem.copy old_url new_url w = (Raise (NameError "url"), w).
Proof. reflexivity. Qed.

(** Claim C3 (the code's defect).  In a mode with the append flag and
    without the write flag, opening an absent target fails: the size query
    comes first and its not-found failure is raised as [IOError]; the size
    query is the only backend primitive invoked, so nothing is created. *)
Theorem append_absent_fails uri mode w :
  contains str_a mode = true ->
  contains str_w mode = false ->
  files w !! canon uri = None ->
  GioFileSystem.open uri mode w
  = (Raise (IOError (of_gerror G_NOT_FOUND)),
     set_trace (trace w ++ [QueryInfo (new_for_uri uri)]) w).
Proof.
  intros Ha Hw Hf. unfold GioFileSystem.open, GioFileAdapter.__init__.
  rewrite Hw. exec. by rewrite Hf.
Qed.

(** Claim C4.  When both URIs designate the same resource, [rename] raises
    [AssertionError] (not an [IOError]) and the world, log included, is
    unchanged: no move is invoked.  Otherwise exactly one move from the old
    to the new file is invoked and its outcome is the outcome of [rename],
    a backend failure being converted to [IOError]. *)
Theorem rename_same_or_distinct old_url new_url w :
  (canon old_url = canon new_url ->
   GioFileSystem.rename old_url new_url w = (Raise AssertionError, w))
  /\ (canon old_url <> canon new_url ->
      exists r w',
        GioFileSystem.rename old_url new_url w = (r, w')
        /\ trace w' = trace w ++ [Move (new_for_uri old_url) (new_for_uri new_url) FlagsNone]
        /\ match files w !! canon old_url, files w !! canon new_url with
           | Some c, None =>
               r = Ok tt
               /\ files w' = <[canon new_url := c]> (delete (canon old_url) (files w))
           | Some _, Some _ =>
               r = Raise (IOError (of_gerror G_EXISTS)) /\ files w' = files w
           | None, _ =>
               r = Raise (IOError (of_gerror G_NOT_FOUND)) /\ files w' = files w
           end).
Proof.
  unfold GioFileSystem.rename, GioOps.equal, GioOps.key_of. cbn [uri new_for_uri].
  split; intros Hc.
  - rewrite bool_decide_eq_true_2 by done. reflexivity.
  - rewrite bool_decide_eq_false_2 by done. exec.
    destruct (files w !! canon old_url) as [c|], (files w !! canon new_url) as [c'|];
      cbn; eauto 10.
Qed.

Lemma open_inv uri mode w s w' :
  GioFileSystem.open uri mode w = (Ok s, w') ->
  exists a, GioFileAdapter.__init__ (new_for_uri uri) mode w = (Ok a, w')
            /\ s = if contains str_b mode then GioFileSystem.Binary a
                   else GioFileSystem.Text (GioUTF8FileAdapter.__init__ a).
Proof.
  unfold GioFileSystem.open, try_except_GError, Gio.bind.
  destruct (GioFileAdapter.__init__ (new_for_uri uri) mode w) as [[a|e] w0].
  - destruct (contains str_b mode); cbn; intros [= <- <-]; by exists a.
  - destruct e; done.
Qed.

(** Claim C8.  On every stream that [open] returns, in whatever mode,
    [readable()] is true and [writable()] is true exactly when the mode
    string holds the write flag; a pure append mode is thus not writable.
    The text layer answers as the byte layer beneath it. *)
Theorem readable_always_writable_w uri mode w s w' :
  GioFileSystem.open uri mode w = (Ok s, w') ->
  match s with
  | GioFileSystem.Binary a =>
      GioFileAdapter.readable a = true
      /\ GioFileAdapter.writable a = contains str_w mode
  | GioFileSystem.Text t =>
      GioUTF8FileAdapter.readable t = true
      /\ GioUTF8FileAdapter.writable t = contains str_w mode
  end.
Proof.
  intros (a & Hinit & ->)%open_inv.
  apply init_handles in Hinit as (Hmode & _).
  unfold GioUTF8FileAdapter.readable, GioUTF8FileAdapter.writable,
    GioFileAdapter.writable, GioFileAdapter.readable.
  destruct (contains str_b mode); cbn; by rewrite Hmode.
Qed.

(** Claim C9.  [close()] on a constructed stream succeeds and marks it
    closed.  In read mode the input handle is the owning handle and it is
    closed exactly once; in write or append mode the input handle, the output
    handle and the distinct owning read-write handle are closed, once each,
    in this order. *)
Theorem close_releases f mode w self w1 :
  GioFileAdapter.__init__ f mode w = (Ok self, w1) ->
  exists self' w2,
    GioFileAdapter.close self w1 = (Ok self', w2)
    /\ GioFileAdapter.closed self' = true
    /\ if contains str_r mode then
         exists h,
           GioFileAdapter.gin self = Some h /\ GioFileAdapter.gfd self = Some h
           /\ GioFileAdapter.gout self = None
           /\ trace w2 = trace w1 ++ [Close h]
       else if contains str_w mode || contains str_a mode then
         exists hio hin hout,
           GioFileAdapter.gfd self = Some hio /\ GioFileAdapter.gin self = Some hin
           /\ GioFileAdapter.gout self = Some hout
           /\ hio <> hin /\ hio <> hout /\ hin <> hout
           /\ trace w2 = trace w1 ++ [Close hin; Close hout; Close hio]
       else trace w2 = trace w1.
Proof.
  intros Hinit. apply init_handles in Hinit as (_ & _ & _ & Hh).
  unfold GioFileAdapter.close, GioFileAdapter.flush.
  cbn [GioFileAdapter.gfd GioFileAdapter.gin GioFileAdapter.gout
       GioFileAdapter.mark_closed].
  destruct (contains str_r mode); [|destruct (contains str_w mode || contains str_a mode)];
    destruct Hh as (Hfd & Hin & Hout); rewrite Hfd, Hin, Hout.
  - assert (same_object (Some (List.length (streams w))) (Some (List.length (streams w)))
            = true) as -> by apply Nat.eqb_refl.
    exec. do 2 eexists. split; [reflexivity|]. split; [done|].
    eexists. done.
  - assert (same_object (Some (S (S (List.length (streams w)))))
              (Some (List.length (streams w))) = false) as ->
      by (apply Nat.eqb_neq; lia).
    exec. do 2 eexists. split; [reflexivity|]. split; [done|].
    do 3 eexists. repeat split; try done; lia.
  - exec. do 2 eexists. split; [reflexivity|]. split; [done|]. done.
Qed.

(** Claim C7.  [read(n)] with a negative [n] asks the input handle for
    exactly the cached [size] and invokes no other backend primitive (no size
    query); on a live handle it returns the bytes from the cursor on, at most
    [size] of them.  When the method that [self.readable()] resolves to
    answers false, [read] raises [OSError] before touching the backend; the
    class's own [readable] never does. *)
Theorem read_negative_uses_cached_size readable_m self n w :
  n < 0 ->
  (readable_m self = false ->
   GioFileAdapter.read_as readable_m self n w
   = (Raise (OSError (of_message "File is not readable")), w))
  /\ (readable_m self = true ->
      exists r w',
        GioFileAdapter.read_as readable_m self n w = (r, w')
        /\ files w' = files w
        /\ trace w' = trace w ++ match GioFileAdapter.gin self with
                                 | Some h => [ReadBytes h (GioFileAdapter.size self)]
                                 | None => []
                                 end
        /\ forall h s c,
             GioFileAdapter.gin self = Some h ->
             streams w !! h = Some s -> st_closed s = false ->
             channels w !! st_chan s = Some c ->
             r = Ok (take (Z.to_nat (GioFileAdapter.size self))
                       (drop (Z.to_nat (ch_pos c)) (GioOps.content w (ch_key c)))))
  /\ GioFileAdapter.read self n w
     = GioFileAdapter.read_as GioFileAdapter.readable self n w.
Proof.
  intros Hn. unfold GioFileAdapter.read, GioFileAdapter.read_as.
  split; [by intros ->|]. split; [|done]. intros ->. cbn [negb].
  rewrite (proj2 (Z.ltb_lt n 0) Hn).
  destruct (GioFileAdapter.gin self) as [h|]; exec.
  - destruct (Z.eqb_spec (GioFileAdapter.size self) 0) as [Hz|Hz].
    { do 2 eexists. split; [reflexivity|]. cbn.
      split; [done|]. split; [done|]. intros h' s' c' _ _ _ _. by rewrite Hz. }
    exec. destruct (streams w !! h) as [s|] eqn:Hs; exec;
      [destruct (st_closed s) eqn:Hc; exec;
       [|destruct (channels w !! st_chan s) as [c|] eqn:Hch; exec]|];
      do 2 eexists; (split; [reflexivity|]); cbn;
      (split; [done|]); (split; [done|]); intros h' s' c' ? ? ? ?; simplify_eq;
      try done; try congruence.
  - do 2 eexists. split; [reflexivity|]. cbn. rewrite app_nil_r.
    repeat split; done.
Qed.

(** Claim C5, as amended.  At the byte layer [readlines()] splits the whole
    content at the newline byte and appends a newline to every chunk, so the
    content ["a\nb\n"] gives the three chunks ["a\n"], ["b\n"], ["\n"].
    At the text layer it splits the decoded text at [os.linesep], appends a newline
    to every segment and drops a last segment that is a lone newline, so
    where [os.linesep] is the newline the text ["a\nb\n"] gives ["a\n"],
    ["b\n"]. *)
Theorem readlines_both_layers self w data w' :
  GioFileAdapter.readall self w = (Ok data, w') ->
  (GioFileAdapter.readlines self w
   = (Ok (List.map (fun x => x ++ [10]) (split_from [10] 0 data)), w')
   /\ (data = [97; 10; 98; 10] ->
       GioFileAdapter.readlines self w = (Ok [[97; 10]; [98; 10]; [10]], w')))
  /\ (forall text,
        Utf8.decode data = Ok text -> os_linesep <> [] ->
        let all := List.map (fun x => x ++ [10]) (split_from os_linesep 0 text) in
        GioUTF8FileAdapter.readlines (GioUTF8FileAdapter.__init__ self) w
        = (Ok (if bool_decide (last all = Some [10]) then removelast all else all), w')
        /\ (os_linesep = [10] -> text = [97; 10; 98; 10] ->
            GioUTF8FileAdapter.readlines (GioUTF8FileAdapter.__init__ self) w
            = (Ok [[97; 10]; [98; 10]], w'))).
Proof.
  intros Hall.
  assert (GioFileAdapter.readlines self w
          = (Ok (List.map (fun x => x ++ [10]) (split_from [10] 0 data)), w')) as Hb.
  { unfold GioFileAdapter.readlines. by rewrite (bind_ok _ _ _ _ _ Hall). }
  split; [split; [done|by intros ->]|].
  intros text Ht Hsep all.
  assert (GioUTF8FileAdapter.readlines (GioUTF8FileAdapter.__init__ self) w
    = (Ok (if bool_decide (last all = Some [10]) then removelast all else all), w')) as Hres.
  { unfold GioUTF8FileAdapter.readlines, GioUTF8FileAdapter.readall.
    cbn [GioUTF8FileAdapter.raw GioUTF8FileAdapter.__init__].
    unfold Gio.bind at 1. unfold Gio.bind at 1. rewrite Hall.
    unfold Gio.lift at 1. rewrite Ht.
    unfold split. destruct os_linesep as [|x sep] eqn:Hl; [done|].
    unfold Gio.bind, Gio.lift. subst all.
    set (all := List.map _ (split_from (x :: sep) 0 text)).
    destruct (last all) as [l|] eqn:Hlast.
    - unfold str_nl, Gio.ret. destruct (decide (l = [10])) as [->|Hne].
      + by rewrite !bool_decide_eq_true_2.
      + rewrite !bool_decide_eq_false_2; [done|congruence|done].
    - exfalso. apply last_None in Hlast. unfold all in Hlast.
      apply map_eq_nil in Hlast. by apply split_from_nonempty in Hlast. }
  split; [done|]. intros Hposix ->. rewrite Hres. unfold all. rewrite Hposix.
  reflexivity.
Qed.

End Backend.

(** * Further properties *)

(** ** Further properties of the URI codec *)

(** [safe] returns a URI that already has a scheme separator as it is; and
    whatever it returns has a scheme separator, so that [safe] returns it
    again: [safe (safe x) = safe x]. *)
Theorem safe_idempotent x :
  (contains str_sep x = true -> GioFileSystem.safe x = Ok x)
  /\ (forall u, GioFileSystem.safe x = Ok u ->
       contains str_sep u = true /\ GioFileSystem.safe u = Ok u).
Proof.
  unfold GioFileSystem.safe. split.
  - by intros ->.
  - intros u. destruct (contains str_sep x) eqn:Hx; cbn [negb].
    + intros [= <-]. by rewrite Hx.
    + destruct (Urllib.quote x) as [q|]; [|done]. cbn [res_bind]. intros [= <-].
      pose proof (contains_file_scheme q) as Hc. split; [exact Hc|].
      change (contains str_sep (str_file ++ q)) with true. reflexivity.
Qed.

Lemma hexdigit_unreserved n : 0 <= n < 16 -> always_safe (hexdigit n) = true.
Proof.
  intros Hn. unfold always_safe, hexdigit. destruct (Z.ltb_spec n 10); zcases; done.
Qed.

Lemma quote_from_bytes_alphabet bs :
  Forall is_byte bs ->
  Forall (fun c => always_safe c || (c =? 47) || (c =? 37) = true)
    (quote_from_bytes bs [47]).
Proof.
  unfold quote_from_bytes. induction 1 as [|b bs Hb Hbs IH]; [constructor|].
  cbn [List.map List.concat]. apply Forall_app; split; [|done].
  unfold quoter, member. cbn [existsb]. rewrite orb_false_r.
  destruct (always_safe b || (b =? 47)) eqn:Hs.
  - repeat constructor. by rewrite Hs.
  - unfold is_byte in Hb. unfold percent.
    constructor; [done|].
    do 2 (constructor;
          [rewrite hexdigit_unreserved;
             [done|Z.to_euclidean_division_equations; lia]|]).
    constructor.
Qed.

Lemma quote_from_bytes_length bs :
  List.length (quote_from_bytes bs [47])
  = (List.length bs
     + 2 * List.length (List.filter (fun b => negb (always_safe b || (b =? 47)%Z)) bs))%nat.
Proof.
  unfold quote_from_bytes. induction bs as [|b bs IH]; [done|].
  cbn [List.map List.concat List.filter]. rewrite length_app, IH.
  unfold quoter, member. cbn [existsb]. rewrite orb_false_r.
  destruct (always_safe b || (b =? 47)); cbn [negb List.length]; lia.
Qed.

(** The safe form of a local path is [file://] followed by the
    percent-encoding of its UTF-8 bytes.  It holds only letters, digits, the
    characters [_.-~/] and the percent sign, so no other character, and in
    particular none above U+007F, stands in it literally; a byte that is a
    letter, a digit or one of [_.-~/] takes one character of it, any other
    byte three. *)
Theorem safe_local_is_ascii_file_uri p u :
  Forall is_code_point p ->
  contains str_sep p = false ->
  GioFileSystem.safe p = Ok u ->
  startswith str_file u = true
  /\ Forall (fun c => is_ascii c = true) u
  /\ exists q bs,
       u = str_file ++ q /\ Utf8.encode p = Ok bs
       /\ Forall (fun c => always_safe c || (c =? 47) || (c =? 37) = true) q
       /\ List.length q
          = (List.length bs
             + 2 * List.length
                     (List.filter (fun b => negb (always_safe b || (b =? 47)%Z)) bs))%nat.
Proof.
  intros Hp Hsep. unfold GioFileSystem.safe, Urllib.quote. rewrite Hsep. cbn [negb].
  destruct (Utf8.encode p) as [bs|] eqn:He; [|done]. cbn [res_bind].
  intros [= <-].
  pose proof (utf8_encode_bytes _ _ Hp He) as Hbs.
  split; [apply startswith_file_scheme|]. split.
  - repeat (constructor; [reflexivity|]). by apply quote_from_bytes_ascii.
  - exists (quote_from_bytes bs [47]), bs.
    split; [done|]. split; [done|].
    split; [by apply quote_from_bytes_alphabet|apply quote_from_bytes_length].
Qed.

(** ** posixpath.dirname *)

Lemma drop_while_app_stop f l x rest :
  forallb f l = true -> f x = false ->
  drop_while f (l ++ x :: rest) = x :: rest.
Proof.
  induction l as [|y l IH]; cbn; intros Hl Hx; [by rewrite Hx|].
  apply andb_true_iff in Hl as [-> Hl]. by apply IH.
Qed.

Lemma forallb_reverse (f : Z -> bool) l : forallb f (rev l) = forallb f l.
Proof.
  induction l as [|x l IH]; [done|]. cbn. rewrite forallb_app, IH. cbn.
  rewrite andb_true_r. apply andb_comm.
Qed.

(** [dirname] of a child URI is the parent it was built from: for a name
    without slash appended behind a slash to a parent that is not empty and
    does not end in a slash, [dirname (parent + "/" + name) = parent]. *)
Theorem dirname_child parent name :
  parent <> [] -> last parent <> Some 47 ->
  forallb (fun c => negb (c =? 47)) name = true ->
  GioFileSystem.dirname (parent ++ 47 :: name) = parent.
Proof.
  intros Hne Hlast Hname. unfold GioFileSystem.dirname.
  rewrite rev_app_distr. cbn [rev]. rewrite <- app_assoc. cbn [app].
  rewrite drop_while_app_stop; [|by rewrite forallb_reverse|done].
  change (rev (47 :: rev parent)) with (rev (rev parent) ++ [47]).
  rewrite rev_involutive.
  destruct (rev parent) as [|z r] eqn:Hr.
  { apply (f_equal (@rev Z)) in Hr. rewrite rev_involutive in Hr. done. }
  assert (parent = rev r ++ [z]) as Hp.
  { apply (f_equal (@rev Z)) in Hr. by rewrite rev_involutive in Hr. }
  assert (z <> 47) as Hz.
  { intros ->. apply Hlast. rewrite Hp. by rewrite last_snoc. }
  rewrite bool_decide_eq_false_2 by (by destruct parent).
  assert (forallb (Z.eqb 47) (parent ++ [47]) = false) as ->.
  { rewrite Hp, !forallb_app. cbn [forallb].
    destruct (Z.eqb_spec 47 z); [congruence|].
    by destruct (forallb (Z.eqb 47) (rev r)). }
  cbn [negb andb]. rewrite rev_app_distr. cbn [rev app drop_while].
  rewrite Z.eqb_refl, Hr. cbn [drop_while].
  destruct (Z.eqb_spec 47 z); [congruence|]. by rewrite <- Hr, rev_involutive.
Qed.


(** ** Lines *)

Lemma cons_head_app x segs more :
  segs <> [] -> cons_head x (segs ++ more) = cons_head x segs ++ more.
Proof. by destruct segs. Qed.

Lemma concat_cons_head {B} (f : list Z -> list B) (g : Z -> list B) x segs :
  (forall cur, f (x :: cur) = g x ++ f cur) -> segs <> [] ->
  List.concat (List.map f (cons_head x segs)) = g x ++ List.concat (List.map f segs).
Proof.
  intros Hf Hne. destruct segs as [|cur more]; [done|]. cbn.
  by rewrite Hf, <- app_assoc.
Qed.

(** The chunks, each with the separator appended, concatenate to the data
    followed by one separator. *)
Lemma split_single_concat c s :
  List.concat (List.map (fun x => x ++ [c]) (split_from [c] 0 s)) = s ++ [c].
Proof.
  induction s as [|x s IH]; [done|]. rewrite split_from_single.
  destruct (c =? x) eqn:Hx.
  - apply Z.eqb_eq in Hx as ->. cbn. by rewrite IH.
  - rewrite (concat_cons_head _ (fun y => [y])); [by rewrite IH| done
      | apply split_from_nonempty].
Qed.

Lemma split_single_length c s :
  List.length (split_from [c] 0 s) = S (count_occ Z.eq_dec s c).
Proof.
  induction s as [|x s IH]; [done|]. rewrite split_from_single. cbn [count_occ].
  destruct (Z.eqb_spec c x) as [->|Hx].
  - destruct (Z.eq_dec x x); [|done]. cbn. by rewrite IH.
  - destruct (Z.eq_dec x c); [congruence|].
    pose proof (split_from_nonempty [c] 0 s).
    destruct (split_from [c] 0 s); [done|]. exact IH.
Qed.

Lemma split_single_no_sep c s :
  Forall (fun x => ~ In c x) (split_from [c] 0 s).
Proof.
  induction s as [|x s IH]; [repeat constructor; by intros []|].
  rewrite split_from_single.
  destruct (Z.eqb_spec c x) as [->|Hx].
  - constructor; [by intros []|done].
  - destruct (split_from [c] 0 s) as [|cur more]; [repeat constructor; by intros [|[]]|].
    cbn. inversion IH; subst. constructor; [|done]. intros [?|?]; [congruence|done].
Qed.

Lemma split_single_snoc_sep c s :
  split_from [c] 0 (s ++ [c]) = split_from [c] 0 s ++ [[]].
Proof.
  induction s as [|x s IH]; [cbn; by rewrite Z.eqb_refl|].
  cbn [app]. rewrite !split_from_single, IH.
  destruct (c =? x); [done|]. apply cons_head_app, split_from_nonempty.
Qed.

Lemma split_single_snoc_other c s y :
  y <> c -> last (split_from [c] 0 (s ++ [y])) <> Some [].
Proof.
  intros Hy. induction s as [|x s IH].
  - cbn. destruct (Z.eqb_spec c y); [congruence|]. cbn. done.
  - cbn [app]. rewrite split_from_single.
    pose proof (split_from_nonempty [c] 0 (s ++ [y])) as Hne.
    destruct (split_from [c] 0 (s ++ [y])) as [|cur more]; [done|].
    destruct (c =? x).
    + done.
    + cbn [cons_head]. destruct more as [|m more]; [|done].
      cbn in IH |- *. congruence.
Qed.

Lemma last_map {A B} (f : A -> B) (l : list A) : last (List.map f l) = f <$> last l.
Proof.
  induction l as [|x l IH]; [done|]. destruct l as [|y l]; [done|].
  cbn [List.map] in *. rewrite !last_cons_cons. exact IH.
Qed.

Lemma removelast_snoc {A} (l : list A) x : removelast (l ++ [x]) = l.
Proof. rewrite removelast_app by done. cbn. apply app_nil_r. Qed.

Section Lines.
Context `{Host}.

(** What the text layer's [readlines] computes from the decoded text. *)
Lemma text_readlines_eq self w data text w' :
  GioFileAdapter.readall self w = (Ok data, w') ->
  Utf8.decode data = Ok text -> os_linesep <> [] ->
  let all := List.map (fun x => x ++ [10]) (split_from os_linesep 0 text) in
  GioUTF8FileAdapter.readlines (GioUTF8FileAdapter.__init__ self) w
  = (Ok (if bool_decide (last all = Some [10]) then removelast all else all), w').
Proof.
  intros Hall Ht Hsep all.
  unfold GioUTF8FileAdapter.readlines, GioUTF8FileAdapter.readall.
  cbn [GioUTF8FileAdapter.raw GioUTF8FileAdapter.__init__].
  unfold Gio.bind at 1. unfold Gio.bind at 1. rewrite Hall.
  unfold Gio.lift at 1. rewrite Ht.
  unfold split. destruct os_linesep as [|x sep] eqn:Hl; [done|].
  unfold Gio.bind, Gio.lift. subst all.
  set (all := List.map _ (split_from (x :: sep) 0 text)).
  destruct (last all) as [l|] eqn:Hlast.
  - unfold str_nl, Gio.ret. destruct (decide (l = [10])) as [->|Hne].
    + by rewrite !bool_decide_eq_true_2.
    + rewrite !bool_decide_eq_false_2; [done|congruence|done].
  - exfalso. apply last_None in Hlast. unfold all in Hlast.
    apply map_eq_nil in Hlast. by apply split_from_nonempty in Hlast.
Qed.

(** Byte layer: the lines of [readlines()] concatenate to the content
    followed by one extra newline; there is one line more than the content
    has newline bytes; every line ends in a newline and holds no other. *)
Theorem bytes_readlines_shape self w data w' :
  GioFileAdapter.readall self w = (Ok data, w') ->
  exists lines,
    GioFileAdapter.readlines self w = (Ok lines, w')
    /\ List.concat lines = data ++ [10]
    /\ List.length lines = S (count_occ Z.eq_dec data 10)
    /\ Forall (fun l => exists x, l = x ++ [10] /\ ~ In 10 x) lines.
Proof.
  intros Hall. eexists. split.
  { unfold GioFileAdapter.readlines. rewrite (bind_ok _ _ _ _ _ Hall). reflexivity. }
  unfold str_nl. split; [apply split_single_concat|].
  split; [by rewrite length_map, split_single_length|].
  apply Forall_map. eapply Forall_impl; [apply split_single_no_sep|].
  intros x Hx. by exists x.
Qed.

(** Text layer where [os.linesep] is the newline: an empty text has no
    lines; the lines of a text that ends in a newline concatenate to the
    text itself, one line per newline; a text that does not end in a newline
    gets one appended to its last line. *)
Theorem text_readlines_posix self w data text w' :
  os_linesep = [10] ->
  GioFileAdapter.readall self w = (Ok data, w') ->
  Utf8.decode data = Ok text ->
  exists lines,
    GioUTF8FileAdapter.readlines (GioUTF8FileAdapter.__init__ self) w = (Ok lines, w')
    /\ match last text with
       | None => lines = []
       | Some y =>
           if y =? 10
           then List.concat lines = text
                /\ List.length lines = count_occ Z.eq_dec text 10
           else List.concat lines = text ++ [10]
                /\ List.length lines = S (count_occ Z.eq_dec text 10)
       end.
Proof.
  intros Hsep Hall Ht. eexists. split.
  { apply (text_readlines_eq _ _ _ _ _ Hall Ht). by rewrite Hsep. }
  rewrite Hsep.
  destruct (last text) as [y|] eqn:Hlast.
  - apply last_Some in Hlast as [t ->].
    destruct (Z.eqb_spec y 10) as [->|Hy].
    + rewrite split_single_snoc_sep, map_app. cbn [List.map app].
      rewrite last_snoc, bool_decide_eq_true_2 by done.
      rewrite removelast_snoc. split; [apply split_single_concat|].
      rewrite length_map, split_single_length, count_occ_app. cbn.
      destruct (Z.eq_dec 10 10); [lia|done].
    + rewrite bool_decide_eq_false_2.
      * split; [apply split_single_concat|].
        by rewrite length_map, split_single_length.
      * rewrite last_map. intros Hl.
        destruct (last (split_from [10] 0 (t ++ [y]))) as [seg|] eqn:Hseg; [|done].
        cbn in Hl. injection Hl as Hl. destruct seg; [|by destruct seg].
        by eapply split_single_snoc_other.
  - apply last_None in Hlast as ->. reflexivity.
Qed.

End Lines.

(** ** Writing lines *)

Lemma utf8_encode_app a b :
  Utf8.encode (a ++ b)
  = res_bind (Utf8.encode a) (fun x => res_bind (Utf8.encode b) (fun y => Ok (x ++ y))).
Proof.
  induction a as [|c a IH]; cbn.
  - by destruct (Utf8.encode b).
  - destruct (Utf8.encode_cp c) as [e|]; [|done]. rewrite IH.
    destruct (Utf8.encode a) as [x|]; [|done]. cbn.
    destruct (Utf8.encode b) as [y|]; [|done]. cbn. by rewrite app_assoc.
Qed.

Section Writing.
Context `{Host}.

Lemma encode_lines_concat lines :
  res_bind (GioUTF8FileAdapter.encode_lines lines) (fun bs => Ok (List.concat bs))
  = Utf8.encode (List.concat (List.map (fun l => l ++ os_linesep) lines)).
Proof.
  induction lines as [|l lines IH]; [done|].
  cbn [GioUTF8FileAdapter.encode_lines List.map List.concat].
  rewrite (utf8_encode_app (l ++ os_linesep)), <- IH.
  destruct (Utf8.encode (l ++ os_linesep)) as [b|]; [|done]. cbn [res_bind].
  by destruct (GioUTF8FileAdapter.encode_lines lines).
Qed.

(** Text layer: [writelines(lines)] does to the backend exactly what one
    [write] of the lines, each followed by [os.linesep], joined into one
    string does: one [write_all] of the whole UTF-8 payload, or a
    [UnicodeEncodeError] before anything is written. *)
Theorem text_writelines_as_write self lines w :
  GioUTF8FileAdapter.writelines self lines w
  = (GioUTF8FileAdapter.write self
       (List.concat (List.map (fun l => l ++ os_linesep) lines)) ;;; Gio.ret tt) w.
Proof.
  unfold GioUTF8FileAdapter.writelines, GioUTF8FileAdapter.write,
    GioFileAdapter.writelines.
  rewrite <- encode_lines_concat.
  destruct (GioUTF8FileAdapter.encode_lines lines) as [bs|e]; reflexivity.
Qed.

(** [seek] with a [whence] other than [os.SEEK_SET], [os.SEEK_CUR] and
    [os.SEEK_END] raises [KeyError] and reaches no backend primitive, at both
    layers. *)
Theorem seek_bad_whence self offset whence w :
  whence <> SEEK_SET -> whence <> SEEK_CUR -> whence <> SEEK_END ->
  GioFileAdapter.seek self offset whence w = (Raise (KeyError whence), w)
  /\ GioUTF8FileAdapter.seek (GioUTF8FileAdapter.__init__ self) offset whence w
     = (Raise (KeyError whence), w).
Proof.
  intros H0 H1 H2.
  unfold GioUTF8FileAdapter.seek, GioFileAdapter.seek, Gio.bind, Gio.raise.
  cbn [GioUTF8FileAdapter.raw GioUTF8FileAdapter.__init__].
  destruct (Z.eqb_spec whence SEEK_CUR); [done|].
  destruct (Z.eqb_spec whence SEEK_END); [done|].
  destruct (Z.eqb_spec whence SEEK_SET); done.
Qed.

End Writing.

(** ** Streams at work *)

Lemma take_all_of_nat {A} (l : list A) : take (Z.to_nat (Z.of_nat (List.length l))) l = l.
Proof. rewrite Nat2Z.id. by apply take_ge. Qed.

Lemma lookup_fresh_3 {A} (l : list A) a b c d rest :
  (l ++ a :: b :: c :: d :: rest) !! S (S (S (List.length l))) = Some d.
Proof.
  change (l ++ a :: b :: c :: d :: rest) with (l ++ [a; b; c] ++ d :: rest).
  rewrite app_assoc. apply list_lookup_middle. rewrite length_app. simpl. lia.
Qed.

Lemma insert_fresh_1 {A} (l : list A) a b x rest :
  <[S (List.length l) := x]> (l ++ a :: b :: rest) = l ++ a :: x :: rest.
Proof. induction l as [|y l IH]; [done|]. cbn. f_equal. apply IH. Qed.

Lemma overwrite_at_end c b :
  GioOps.overwrite c (List.length c) b = c ++ b.
Proof.
  unfold GioOps.overwrite. rewrite firstn_all, Nat.sub_diag. cbn [replicate app].
  rewrite drop_ge by lia. by rewrite app_nil_r.
Qed.

Lemma overwrite_empty b : GioOps.overwrite [] 0 b = b.
Proof. unfold GioOps.overwrite. cbn. rewrite drop_nil. apply app_nil_r. Qed.

Lemma of_nat_add_ltb_0 n m : (Z.of_nat n + Z.of_nat m <? 0) = false.
Proof. apply Z.ltb_ge. lia. Qed.

Lemma of_nat_length_eqb_0 {A} (l : list A) :
  l <> [] -> (Z.of_nat (List.length l) =? 0) = false.
Proof. intros Hl. apply Z.eqb_neq. destruct l; [done|]. cbn [List.length]. lia. Qed.

Lemma overwrite_at_start c b :
  GioOps.overwrite c 0 b = b ++ drop (List.length b) c.
Proof. reflexivity. Qed.

Arguments GioOps.overwrite : simpl never.

(** A byte string is empty, or its length is not zero. *)
Ltac empty_or_not c Hnz :=
  destruct (decide (c = [])) as [->|Hnz]; [|apply of_nat_length_eqb_0 in Hnz].

Ltac exec_io :=
  repeat (progress (exec;
                    rewrite ?take_all_of_nat, ?Nat2Z.id, ?firstn_all, ?drop_all,
                      ?drop_0, ?Z.add_0_l, ?lookup_insert_eq, ?overwrite_at_end,
                      ?overwrite_empty, ?lookup_fresh_3, ?insert_fresh_1,
                      ?of_nat_add_ltb_0, ?Nat2Z.inj_0)).

Section Streams.
Context `{Host}.

(** Opening an existing resource in a plain read mode caches its length as
    [size], and [readall()] on the fresh stream returns its whole content and
    leaves the cursor at its end; the resources are not modified. *)
Theorem read_mode_readall uri mode w c :
  contains str_r mode = true -> contains str_w mode = false ->
  contains str_a mode = false ->
  files w !! canon uri = Some c ->
  exists s w1 w2 w3,
    GioFileSystem.open uri mode w = (Ok s, w1)
    /\ GioFileAdapter.size (GioFileSystem.raw_of s) = Z.of_nat (List.length c)
    /\ GioFileAdapter.readall (GioFileSystem.raw_of s) w1 = (Ok c, w2)
    /\ GioFileAdapter.tell (GioFileSystem.raw_of s) w2
       = (Ok (Z.of_nat (List.length c)), w3)
    /\ files w3 = files w.
Proof.
  intros Hr Hw Ha Hf.
  unfold GioFileSystem.open, GioFileAdapter.__init__, GioFileAdapter.readall,
    GioFileAdapter.read, GioFileAdapter.read_as, GioFileAdapter.readable,
    GioFileAdapter.tell.
  rewrite Hr, Hw, Ha. empty_or_not c Hnz.
  all: repeat (progress (exec_io; rewrite ?Hf; try rewrite Hnz)).
  all: destruct (contains str_b mode);
    repeat (progress (exec_io; rewrite ?Hf; try rewrite Hnz));
    do 4 eexists; (split; [reflexivity|]);
    repeat (progress (exec_io; rewrite ?Hf; try rewrite Hnz));
    (split; [reflexivity|]); (split; [reflexivity|]);
    repeat (progress (exec_io; rewrite ?Hf; try rewrite Hnz)); done.
Qed.

(** A resource that holds the UTF-8 encoding of a text reads back as that
    text through a stream opened in a plain text read mode. *)
Theorem text_mode_readall uri mode w bs text :
  contains str_r mode = true -> contains str_w mode = false ->
  contains str_a mode = false -> contains str_b mode = false ->
  Forall is_code_point text -> Utf8.encode text = Ok bs ->
  files w !! canon uri = Some bs ->
  exists t w1 w2,
    GioFileSystem.open uri mode w = (Ok (GioFileSystem.Text t), w1)
    /\ GioUTF8FileAdapter.readall t w1 = (Ok text, w2).
Proof.
  intros Hr Hw Ha Hb Hcp He Hf.
  pose proof (utf8_decode_encode text bs Hcp He) as Hd.
  unfold GioFileSystem.open, GioFileAdapter.__init__, GioUTF8FileAdapter.readall,
    GioUTF8FileAdapter.__init__, GioFileAdapter.readall,
    GioFileAdapter.read, GioFileAdapter.read_as, GioFileAdapter.readable.
  rewrite Hr, Hw, Ha, Hb.
  empty_or_not bs Hnz; [cbn in Hd; injection Hd as Hd; subst text|].
  all: repeat (progress (exec_io; rewrite ?Hf; try rewrite Hnz)).
  all: do 3 eexists; (split; [reflexivity|]);
    repeat (progress (exec_io; rewrite ?Hf; try rewrite Hd; try rewrite Hnz));
    reflexivity.
Qed.

(** Opening in a mode with the write flag and without the read flag.  On an
    existing target it succeeds, the target keeps its content (nothing is
    truncated) and the cached size is 0.  On an absent target it fails with
    [TypeError], which [open] does not convert to [IOError]: the constructor
    calls [create_readwrite()] without the flags that the call requires;
    the existence query is the only backend primitive invoked, and nothing is
    created. *)
Theorem write_mode_open uri mode w :
  contains str_w mode = true -> contains str_r mode = false ->
  (forall c, files w !! canon uri = Some c ->
     exists s w1 w2,
       GioFileSystem.open uri mode w = (Ok s, w1)
       /\ GioFileAdapter.size (GioFileSystem.raw_of s) = 0
       /\ files w1 = files w
       /\ GioFileSystem.exists_ uri w1 = (Ok true, w2))
  /\ (files w !! canon uri = None ->
      GioFileSystem.open uri mode w
      = (Raise TypeError,
         set_trace (trace w ++ [QueryExists (new_for_uri uri)]) w)).
Proof.
  intros Hw Hr.
  unfold GioFileSystem.open, GioFileAdapter.__init__, GioFileAdapter.seek,
    GioFileSystem.exists_.
  rewrite Hw, Hr. split.
  - intros c Hf.
    destruct (contains str_a mode), (contains str_b mode);
      repeat (progress (exec_io; rewrite ?Hf));
      do 3 eexists; (split; [reflexivity|]); (split; [reflexivity|]);
      (split; [reflexivity|]); repeat (progress (exec_io; rewrite ?Hf)); reflexivity.
  - intros Hf. repeat (progress (exec_io; rewrite ?Hf)). reflexivity.
Qed.

(** Opening an existing resource in a mode with the append flag and without
    the read flag puts the cursor at the end of the data: [tell()] answers
    the length of the content, which is not modified. *)
Theorem append_mode_tell uri mode w c :
  contains str_a mode = true -> contains str_r mode = false ->
  files w !! canon uri = Some c ->
  exists s w1 w2,
    GioFileSystem.open uri mode w = (Ok s, w1)
    /\ files w1 = files w
    /\ GioFileAdapter.tell (GioFileSystem.raw_of s) w1
       = (Ok (Z.of_nat (List.length c)), w2).
Proof.
  intros Ha Hr Hf.
  unfold GioFileSystem.open, GioFileAdapter.__init__, GioFileAdapter.seek,
    GioFileAdapter.tell.
  rewrite Ha, Hr, orb_true_r.
  destruct (contains str_w mode), (contains str_b mode);
    repeat (progress (exec_io; rewrite ?Hf));
    do 3 eexists; (split; [reflexivity|]); (split; [reflexivity|]);
    repeat (progress (exec_io; rewrite ?Hf)); reflexivity.
Qed.

(** Appending: after opening an existing resource in a mode with the append
    flag and without the read flag, [write(b)] returns the length of [b] and
    the resource holds its old content followed by [b]; [getsize] then
    answers the sum of the lengths. *)
Theorem append_mode_write uri mode w c b :
  contains str_a mode = true -> contains str_r mode = false ->
  files w !! canon uri = Some c ->
  exists w',
    (s <- GioFileSystem.open uri mode ;;
     n <- GioFileAdapter.write (GioFileSystem.raw_of s) b ;;
     sz <- GioFileSystem.getsize uri ;;
     Gio.ret (n, sz)) w
    = (Ok (Z.of_nat (List.length b), Z.of_nat (List.length (c ++ b))), w')
    /\ files w' = <[canon uri := c ++ b]> (files w).
Proof.
  intros Ha Hr Hf.
  unfold GioFileSystem.open, GioFileAdapter.__init__, GioFileAdapter.seek,
    GioFileAdapter.write, GioFileSystem.getsize.
  rewrite Ha, Hr, orb_true_r.
  destruct (contains str_w mode), (contains str_b mode);
    repeat (progress (exec_io; rewrite ?Hf));
    eexists; (split; [reflexivity|reflexivity]).
Qed.

End Streams.

Lemma take_app_exact {A} (l k : list A) : take (List.length l) (l ++ k) = l.
Proof. by rewrite take_app_length. Qed.

Lemma take_of_nat_app {A} (l k : list A) :
  take (Z.to_nat (Z.of_nat (List.length l))) (l ++ k) = l.
Proof. rewrite Nat2Z.id. apply take_app_exact. Qed.

Ltac exec_more H :=
  repeat (progress (exec_io; rewrite ?H, ?take_app_exact, ?take_of_nat_app)).

Section Streams.
Context `{Host}.

(** An existing target opened in a plain write mode: [write(b)] overwrites
    the content from its start on and leaves what lies behind the written
    bytes in place; after [seek(0)], [read(len(b))] returns [b], but
    [read(-1)] returns the empty byte string, because the size cached at
    construction is 0. *)
Theorem write_seek_read uri mode w c b :
  contains str_w mode = true -> contains str_r mode = false ->
  contains str_a mode = false ->
  files w !! canon uri = Some c ->
  exists w1 w2,
    (s <- GioFileSystem.open uri mode ;;
     GioFileAdapter.write (GioFileSystem.raw_of s) b ;;;
     GioFileAdapter.seek (GioFileSystem.raw_of s) 0 SEEK_SET ;;;
     GioFileAdapter.read (GioFileSystem.raw_of s) (Z.of_nat (List.length b))) w
    = (Ok b, w1)
    /\ (s <- GioFileSystem.open uri mode ;;
        GioFileAdapter.write (GioFileSystem.raw_of s) b ;;;
        GioFileAdapter.seek (GioFileSystem.raw_of s) 0 SEEK_SET ;;;
        GioFileAdapter.read (GioFileSystem.raw_of s) (-1)) w
       = (Ok [], w2)
    /\ files w1 = <[canon uri := b ++ drop (List.length b) c]> (files w).
Proof.
  intros Hw Hr Ha Hf.
  unfold GioFileSystem.open, GioFileAdapter.__init__, GioFileAdapter.seek,
    GioFileAdapter.write, GioFileAdapter.read, GioFileAdapter.read_as,
    GioFileAdapter.readable.
  rewrite Hw, Hr, Ha. empty_or_not b Hnz.
  all: destruct (contains str_b mode);
    repeat (progress (exec_more Hf; rewrite ?overwrite_at_start; try rewrite Hnz));
    do 2 eexists; (split; [reflexivity|]);
    repeat (progress (exec_more Hf; rewrite ?overwrite_at_start; try rewrite Hnz));
    (split; [reflexivity|]);
    repeat (progress (exec_more Hf; rewrite ?overwrite_at_start; try rewrite Hnz));
    done.
Qed.

(** The cached size is not refreshed: a reader opened on a resource of
    content [c] still returns exactly [c] from [readall()] after another
    stream has appended [b] to the resource, although [getsize] already
    answers the new length. *)
Theorem readall_after_growth uri rmode amode w c b :
  contains str_r rmode = true -> contains str_w rmode = false ->
  contains str_a rmode = false ->
  contains str_a amode = true -> contains str_r amode = false ->
  files w !! canon uri = Some c ->
  exists w',
    (rd <- GioFileSystem.open uri rmode ;;
     ap <- GioFileSystem.open uri amode ;;
     GioFileAdapter.write (GioFileSystem.raw_of ap) b ;;;
     data <- GioFileAdapter.readall (GioFileSystem.raw_of rd) ;;
     sz <- GioFileSystem.getsize uri ;;
     Gio.ret (data, sz)) w
    = (Ok (c, Z.of_nat (List.length (c ++ b))), w').
Proof.
  intros Hr Hw Ha Ha' Hr' Hf.
  unfold GioFileSystem.open, GioFileAdapter.__init__, GioFileAdapter.seek,
    GioFileAdapter.write, GioFileAdapter.readall, GioFileAdapter.read,
    GioFileAdapter.read_as, GioFileAdapter.readable, GioFileSystem.getsize.
  rewrite Hr, Hw, Ha, Ha', Hr', orb_true_r.
  empty_or_not c Hnz.
  all: destruct (contains str_w amode), (contains str_b amode), (contains str_b rmode);
    repeat (progress (exec_more Hf; try rewrite Hnz)); eexists; reflexivity.
Qed.

(** Once a stream opened for reading is closed, a [read] that asks the
    backend for at least one byte fails, and with the backend's own
    [GLib.GError]: the adapter's methods do not convert it to [IOError].
    The number of bytes asked for is [n], or the size cached at opening when
    [n] is negative; a [read] that asks for no byte still returns the empty
    byte string. *)
Theorem read_after_close uri mode w c n :
  contains str_r mode = true -> contains str_w mode = false ->
  contains str_a mode = false ->
  files w !! canon uri = Some c ->
  exists w',
    (s <- GioFileSystem.open uri mode ;;
     s' <- GioFileAdapter.close (GioFileSystem.raw_of s) ;;
     GioFileAdapter.read s' n) w
    = (if (if n <? 0 then Z.of_nat (List.length c) else n) =? 0
       then Ok []
       else Raise (GError G_CLOSED), w').
Proof.
  intros Hr Hw Ha Hf.
  unfold GioFileSystem.open, GioFileAdapter.__init__, GioFileAdapter.close,
    GioFileAdapter.flush, GioFileAdapter.read, GioFileAdapter.read_as,
    GioFileAdapter.readable, GioOps.mark_closed.
  rewrite Hr, Hw, Ha.
  destruct (n <? 0) eqn:Hn;
    [destruct (Z.of_nat (List.length c) =? 0) eqn:Hz|destruct (n =? 0) eqn:Hz].
  all: destruct (contains str_b mode);
    repeat (progress (exec_more Hf; rewrite ?Hn, ?Hz));
    rewrite Nat.eqb_refl; unfold GioOps.mark_closed;
    repeat (progress (exec_more Hf; rewrite ?Hn, ?Hz));
    eexists; reflexivity.
Qed.

End Streams.

Section Streams.
Context `{Host}.

(** After a successful [rename] the old URI no longer exists and the new one
    holds the content: [exists(old)] answers false and [getsize(new)] the
    length of what [old] held. *)
Theorem rename_moves_content old_url new_url w c :
  canon old_url <> canon new_url ->
  files w !! canon old_url = Some c ->
  files w !! canon new_url = None ->
  exists w',
    (GioFileSystem.rename old_url new_url ;;;
     e <- GioFileSystem.exists_ old_url ;;
     sz <- GioFileSystem.getsize new_url ;;
     Gio.ret (e, sz)) w
    = (Ok (false, Z.of_nat (List.length c)), w')
    /\ files w' = <[canon new_url := c]> (delete (canon old_url) (files w)).
Proof.
  intros Hne Hold Hnew.
  unfold GioFileSystem.rename, GioFileSystem.exists_, GioFileSystem.getsize,
    GioOps.equal, GioOps.key_of. cbn [uri new_for_uri].
  rewrite bool_decide_eq_false_2 by done.
  repeat (progress (exec_io; rewrite ?Hold, ?Hnew)).
  rewrite lookup_insert_ne, lookup_delete_eq by done.
  repeat (progress (exec_io)).
  eexists. split; reflexivity.
Qed.

(** [close()] may be repeated: on a constructed stream a second [close()]
    succeeds as the first did and issues the same backend closes again. *)
Theorem close_twice f mode w self w1 :
  GioFileAdapter.__init__ f mode w = (Ok self, w1) ->
  exists self' w2 w3 closes,
    GioFileAdapter.close self w1 = (Ok self', w2)
    /\ trace w2 = trace w1 ++ closes
    /\ GioFileAdapter.close self' w2 = (Ok self', w3)
    /\ trace w3 = trace w2 ++ closes.
Proof.
  intros Hinit. apply init_handles in Hinit as (_ & _ & _ & Hh).
  exists (GioFileAdapter.mark_closed self).
  unfold GioFileAdapter.close, GioFileAdapter.flush.
  cbn [GioFileAdapter.gfd GioFileAdapter.gin GioFileAdapter.gout
       GioFileAdapter.mark_closed].
  destruct (contains str_r mode); [|destruct (contains str_w mode || contains str_a mode)];
    destruct Hh as (Hfd & Hin & Hout); rewrite Hfd, Hin, Hout.
  - assert (same_object (Some (List.length (streams w))) (Some (List.length (streams w)))
            = true) as -> by apply Nat.eqb_refl.
    exec. do 3 eexists. split; [reflexivity|]. split; [reflexivity|].
    rewrite ?Hfd, ?Hin, ?Hout. exec. split; [reflexivity|]. exec. reflexivity.
  - assert (same_object (Some (S (S (List.length (streams w)))))
              (Some (List.length (streams w))) = false) as ->
      by (apply Nat.eqb_neq; lia).
    exec. do 3 eexists. split; [reflexivity|]. split; [reflexivity|].
    rewrite ?Hfd, ?Hin, ?Hout. exec. split; [reflexivity|]. exec. reflexivity.
  - exec. do 2 eexists. exists [].
    split; [reflexivity|]. split; [by rewrite app_nil_r|]. split; [reflexivity|].
    by rewrite app_nil_r.
Qed.

(** Text layer, on an existing target opened in a plain write mode:
    [write(text)] returns the number of bytes of the UTF-8 encoding, not the
    number of characters, and after [seek(0)] a [read] of that many bytes
    returns the text; the target holds the encoding, followed by what its
    old content had behind that many bytes. *)
Theorem text_write_read uri mode w c text bs :
  contains str_w mode = true -> contains str_r mode = false ->
  contains str_a mode = false -> contains str_b mode = false ->
  Forall is_code_point text -> Utf8.encode text = Ok bs ->
  files w !! canon uri = Some c ->
  exists w',
    (s <- GioFileSystem.open uri mode ;;
     let t := GioUTF8FileAdapter.__init__ (GioFileSystem.raw_of s) in
     n <- GioUTF8FileAdapter.write t text ;;
     GioUTF8FileAdapter.seek t 0 SEEK_SET ;;;
     back <- GioUTF8FileAdapter.read t n ;;
     Gio.ret (n, back)) w
    = (Ok (Z.of_nat (List.length bs), text), w')
    /\ files w' = <[canon uri := bs ++ drop (List.length bs) c]> (files w).
Proof.
  intros Hw Hr Ha Hb Hcp He Hf.
  pose proof (utf8_decode_encode text bs Hcp He) as Hd.
  unfold GioFileSystem.open, GioFileAdapter.__init__, GioUTF8FileAdapter.write,
    GioUTF8FileAdapter.seek, GioUTF8FileAdapter.read, GioUTF8FileAdapter.__init__,
    GioFileAdapter.seek, GioFileAdapter.write, GioFileAdapter.read,
    GioFileAdapter.read_as, GioFileAdapter.readable.
  rewrite Hw, Hr, Ha, Hb.
  empty_or_not bs Hnz; [cbn in Hd; injection Hd as Hd; subst text|].
  all: repeat (progress (exec_more Hf; rewrite ?He, ?overwrite_at_start;
                         try rewrite Hd; try rewrite Hnz)).
  all: eexists; split; reflexivity.
Qed.

End Streams.

(** ** The theorems at concrete inputs *)

#[local] Existing Instance posix_host.

Lemma sample_reader_init :
  GioFileAdapter.__init__ (Gio.new_for_uri sample_uri) str_rb sample_world
  = (Ok sample_reader, sample_reader_world).
Proof. vm_compute. reflexivity. Qed.

Lemma sample_reader_readall :
  GioFileAdapter.readall sample_reader sample_reader_world
  = (Ok [97; 10; 98; 10],
     snd (GioFileAdapter.readall sample_reader sample_reader_world)).
Proof. vm_compute. reflexivity. Qed.

Lemma open_read_absent_witness :
  exists w',
    GioFileSystem.open other_uri str_rb sample_world
    = (Raise (IOError (of_gerror G_NOT_FOUND)), w')
    /\ Gio.files w' = Gio.files sample_world
    /\ Gio.streams w' = Gio.streams sample_world.
Proof.
  apply (open_read_absent other_uri str_rb sample_world);
    vm_compute; reflexivity.
Defined.

Lemma append_absent_fails_witness :
  GioFileSystem.open other_uri str_ab sample_world
  = (Raise (IOError (of_gerror G_NOT_FOUND)),
     Gio.set_trace (Gio.trace sample_world ++ [Gio.QueryInfo (Gio.new_for_uri other_uri)])
       sample_world).
Proof.
  apply (append_absent_fails other_uri str_ab sample_world);
    vm_compute; reflexivity.
Defined.

Lemma write_mode_size_zero_witness :
  let r := GioFileAdapter.__init__ (Gio.new_for_uri sample_uri) str_wb sample_world in
  exists self,
    fst r = Ok self
    /\ GioFileAdapter.size self = 0
    /\ List.filter is_query_info (Gio.trace (snd r))
       = List.filter is_query_info (Gio.trace sample_world)
    /\ exists w2, GioFileAdapter.read self (-1) (snd r) = (Ok [], w2).
Proof.
  eexists. split; [vm_compute; reflexivity|].
  apply (write_mode_size_zero (Gio.new_for_uri sample_uri) str_wb sample_world);
    vm_compute; reflexivity.
Defined.

Lemma readable_always_writable_w_witness :
  let r := GioFileSystem.open sample_uri str_ab sample_world in
  exists a,
    fst r = Ok (GioFileSystem.Binary a)
    /\ GioFileAdapter.readable a = true
    /\ GioFileAdapter.writable a = false.
Proof.
  eexists. split; [vm_compute; reflexivity|].
  refine (readable_always_writable_w sample_uri str_ab sample_world
            (GioFileSystem.Binary _) _ _).
  vm_compute; reflexivity.
Defined.

Lemma close_releases_witness :
  exists self' w2,
    GioFileAdapter.close sample_reader sample_reader_world = (Ok self', w2)
    /\ GioFileAdapter.closed self' = true
    /\ exists h,
         GioFileAdapter.gin sample_reader = Some h
         /\ GioFileAdapter.gfd sample_reader = Some h
         /\ GioFileAdapter.gout sample_reader = None
         /\ Gio.trace w2 = Gio.trace sample_reader_world ++ [Gio.Close h].
Proof.
  exact (close_releases (Gio.new_for_uri sample_uri) str_rb sample_world
           sample_reader sample_reader_world sample_reader_init).
Defined.

Lemma read_negative_uses_cached_size_witness :
  exists w',
    GioFileAdapter.read sample_reader (-1) sample_reader_world
    = (Ok [97; 10; 98; 10], w')
    /\ Gio.files w' = Gio.files sample_reader_world
    /\ Gio.trace w' = Gio.trace sample_reader_world ++ [Gio.ReadBytes 0%nat 4].
Proof.
  destruct (read_negative_uses_cached_size GioFileAdapter.readable sample_reader
              (-1) sample_reader_world ltac:(lia)) as (_ & Hyes & Hread).
  destruct (Hyes eq_refl) as (r & w' & Hrun & Hfiles & Htrace & Hdata).
  exists w'. rewrite Hread, Hrun.
  rewrite (Hdata 0%nat
             {| Gio.st_chan := 0%nat; Gio.st_kind := Gio.InputStream;
                Gio.st_closed := false |}
             {| Gio.ch_key := sample_uri; Gio.ch_pos := 0 |}
             eq_refl eq_refl eq_refl eq_refl).
  split; [reflexivity|]. split; [exact Hfiles|exact Htrace].
Defined.

Lemma readlines_both_layers_witness :
  GioFileAdapter.readlines sample_reader sample_reader_world
  = (Ok [[97; 10]; [98; 10]; [10]],
     snd (GioFileAdapter.readall sample_reader sample_reader_world))
  /\ GioUTF8FileAdapter.readlines (GioUTF8FileAdapter.__init__ sample_reader)
       sample_reader_world
     = (Ok [[97; 10]; [98; 10]],
        snd (GioFileAdapter.readall sample_reader sample_reader_world)).
Proof.
  destruct (readlines_both_layers sample_reader sample_reader_world
              [97; 10; 98; 10] _ sample_reader_readall) as ((_ & Hbytes) & Htext).
  split; [exact (Hbytes eq_refl)|].
  destruct (Htext [97; 10; 98; 10] eq_refl ltac:(discriminate)) as (_ & Hex).
  exact (Hex eq_refl eq_refl).
Defined.

(** Claim C5 as stated fails where [os.linesep] is not the newline.  On a
    Windows host the text ["a\nb\n"] holds no line separator: it is one
    segment, and the text layer's [readlines()] returns the single line
    ["a\nb\n\n"], not the two lines ["a\n"], ["b\n"]. *)
Lemma readlines_text_windows :
  @GioUTF8FileAdapter.readlines nt_host (GioUTF8FileAdapter.__init__ sample_reader)
    sample_reader_world
  = (Ok [[97; 10; 98; 10; 10]],
     snd (GioFileAdapter.readall sample_reader sample_reader_world))
  /\ ~ (forall (host : Host) self w data w',
          GioFileAdapter.readall self w = (Ok data, w') ->
          Utf8.decode data = Ok [97; 10; 98; 10] ->
          @GioUTF8FileAdapter.readlines host (GioUTF8FileAdapter.__init__ self) w
          = (Ok [[97; 10]; [98; 10]], w')).
Proof.
  split; [vm_compute; reflexivity|].
  intros Hall.
  specialize (Hall nt_host sample_reader sample_reader_world _ _
                sample_reader_readall eq_refl).
  vm_compute in Hall. discriminate.
Qed.

(** ** The further properties at concrete inputs *)

Lemma safe_idempotent_witness :
  GioFileSystem.safe sample_uri = Ok sample_uri
  /\ contains str_sep (str_file ++ [47; 97; 37; 50; 48; 98]) = true
  /\ GioFileSystem.safe (str_file ++ [47; 97; 37; 50; 48; 98])
     = Ok (str_file ++ [47; 97; 37; 50; 48; 98]).
Proof.
  split.
  - apply (proj1 (safe_idempotent sample_uri)). reflexivity.
  - apply (proj2 (safe_idempotent [47; 97; 32; 98])). reflexivity.
Defined.

Lemma safe_local_is_ascii_file_uri_witness :
  startswith str_file (str_file ++ [47; 37; 67; 51; 37; 65; 57]) = true
  /\ Forall (fun c => is_ascii c = true) (str_file ++ [47; 37; 67; 51; 37; 65; 57])
  /\ exists q bs,
       str_file ++ [47; 37; 67; 51; 37; 65; 57] = str_file ++ q
       /\ Utf8.encode [47; 233] = Ok bs
       /\ Forall (fun c => Urllib.always_safe c || (c =? 47) || (c =? 37) = true) q
       /\ List.length q
          = (List.length bs
             + 2 * List.length
                     (List.filter
                        (fun b => negb (Urllib.always_safe b || (b =? 47)%Z)) bs))%nat.
Proof.
  apply (safe_local_is_ascii_file_uri [47; 233]).
  - repeat constructor; unfold is_code_point; lia.
  - reflexivity.
  - reflexivity.
Defined.

Lemma dirname_child_witness :
  GioFileSystem.dirname (sample_uri ++ 47 :: [98; 37; 50; 48]) = sample_uri.
Proof. apply dirname_child; [discriminate|discriminate|reflexivity]. Defined.

Lemma bytes_readlines_shape_witness :
  exists lines,
    GioFileAdapter.readlines sample_reader sample_reader_world
    = (Ok lines, snd (GioFileAdapter.readall sample_reader sample_reader_world))
    /\ List.concat lines = [97; 10; 98; 10] ++ [10]
    /\ List.length lines = S (count_occ Z.eq_dec [97; 10; 98; 10] 10)
    /\ Forall (fun l => exists x, l = x ++ [10] /\ ~ In 10 x) lines.
Proof.
  exact (bytes_readlines_shape sample_reader sample_reader_world [97; 10; 98; 10]
           _ sample_reader_readall).
Defined.

Lemma text_readlines_posix_witness :
  exists lines,
    GioUTF8FileAdapter.readlines (GioUTF8FileAdapter.__init__ sample_reader)
      sample_reader_world
    = (Ok lines, snd (GioFileAdapter.readall sample_reader sample_reader_world))
    /\ List.concat lines = [97; 10; 98; 10]
    /\ List.length lines = 2%nat.
Proof.
  exact (text_readlines_posix sample_reader sample_reader_world [97; 10; 98; 10]
           [97; 10; 98; 10] _ eq_refl sample_reader_readall eq_refl).
Defined.

Lemma seek_bad_whence_witness :
  GioFileAdapter.seek sample_reader 0 7 sample_reader_world
  = (Raise (KeyError 7), sample_reader_world)
  /\ GioUTF8FileAdapter.seek (GioUTF8FileAdapter.__init__ sample_reader) 0 7
       sample_reader_world
     = (Raise (KeyError 7), sample_reader_world).
Proof. apply seek_bad_whence; discriminate. Defined.

Lemma read_mode_readall_witness :
  exists s w1 w2 w3,
    GioFileSystem.open sample_uri str_rb sample_world = (Ok s, w1)
    /\ GioFileAdapter.size (GioFileSystem.raw_of s) = 4
    /\ GioFileAdapter.readall (GioFileSystem.raw_of s) w1 = (Ok [97; 10; 98; 10], w2)
    /\ GioFileAdapter.tell (GioFileSystem.raw_of s) w2 = (Ok 4, w3)
    /\ Gio.files w3 = Gio.files sample_world.
Proof.
  apply (read_mode_readall sample_uri str_rb sample_world [97; 10; 98; 10]);
    vm_compute; reflexivity.
Defined.

Lemma text_mode_readall_witness :
  exists t w1 w2,
    GioFileSystem.open sample_uri str_r sample_world = (Ok (GioFileSystem.Text t), w1)
    /\ GioUTF8FileAdapter.readall t w1 = (Ok [97; 10; 98; 10], w2).
Proof.
  apply (text_mode_readall sample_uri str_r sample_world [97; 10; 98; 10]);
    try (vm_compute; reflexivity).
  repeat constructor; unfold is_code_point; lia.
Defined.

Lemma write_mode_open_witness :
  (exists s w1 w2,
     GioFileSystem.open sample_uri str_wb sample_world = (Ok s, w1)
     /\ GioFileAdapter.size (GioFileSystem.raw_of s) = 0
     /\ Gio.files w1 = Gio.files sample_world
     /\ GioFileSystem.exists_ sample_uri w1 = (Ok true, w2))
  /\ GioFileSystem.open other_uri str_wb sample_world
     = (Raise TypeError,
        Gio.set_trace
          (Gio.trace sample_world ++ [Gio.QueryExists (Gio.new_for_uri other_uri)])
          sample_world).
Proof.
  split.
  - apply (proj1 (write_mode_open sample_uri str_wb sample_world eq_refl eq_refl)
             [97; 10; 98; 10]).
    vm_compute; reflexivity.
  - apply (proj2 (write_mode_open other_uri str_wb sample_world eq_refl eq_refl)).
    vm_compute; reflexivity.
Defined.

Lemma append_mode_tell_witness :
  exists s w1 w2,
    GioFileSystem.open sample_uri str_ab sample_world = (Ok s, w1)
    /\ Gio.files w1 = Gio.files sample_world
    /\ GioFileAdapter.tell (GioFileSystem.raw_of s) w1 = (Ok 4, w2).
Proof.
  apply (append_mode_tell sample_uri str_ab sample_world [97; 10; 98; 10]);
    vm_compute; reflexivity.
Defined.

Lemma append_mode_write_witness :
  exists w',
    (s <- GioFileSystem.open sample_uri str_ab ;;
     n <- GioFileAdapter.write (GioFileSystem.raw_of s) [99; 10] ;;
     sz <- GioFileSystem.getsize sample_uri ;;
     Gio.ret (n, sz)) sample_world
    = (Ok (2, 6), w')
    /\ Gio.files w' = <[canon sample_uri := [97; 10; 98; 10] ++ [99; 10]]> (Gio.files sample_world).
Proof.
  apply (append_mode_write sample_uri str_ab sample_world [97; 10; 98; 10] [99; 10]);
    vm_compute; reflexivity.
Defined.

Lemma write_seek_read_witness :
  exists w1 w2,
    (s <- GioFileSystem.open sample_uri str_wb ;;
     GioFileAdapter.write (GioFileSystem.raw_of s) [104; 105] ;;;
     GioFileAdapter.seek (GioFileSystem.raw_of s) 0 SEEK_SET ;;;
     GioFileAdapter.read (GioFileSystem.raw_of s) 2) sample_world
    = (Ok [104; 105], w1)
    /\ (s <- GioFileSystem.open sample_uri str_wb ;;
        GioFileAdapter.write (GioFileSystem.raw_of s) [104; 105] ;;;
        GioFileAdapter.seek (GioFileSystem.raw_of s) 0 SEEK_SET ;;;
        GioFileAdapter.read (GioFileSystem.raw_of s) (-1)) sample_world
       = (Ok [], w2)
    /\ Gio.files w1
       = <[canon sample_uri := [104; 105] ++ drop 2 [97; 10; 98; 10]]>
           (Gio.files sample_world).
Proof.
  apply (write_seek_read sample_uri str_wb sample_world [97; 10; 98; 10] [104; 105]);
    vm_compute; reflexivity.
Defined.

Lemma readall_after_growth_witness :
  exists w',
    (rd <- GioFileSystem.open sample_uri str_rb ;;
     ap <- GioFileSystem.open sample_uri str_ab ;;
     GioFileAdapter.write (GioFileSystem.raw_of ap) [99; 10] ;;;
     data <- GioFileAdapter.readall (GioFileSystem.raw_of rd) ;;
     sz <- GioFileSystem.getsize sample_uri ;;
     Gio.ret (data, sz)) sample_world
    = (Ok ([97; 10; 98; 10], 6), w').
Proof.
  apply (readall_after_growth sample_uri str_rb str_ab sample_world
           [97; 10; 98; 10] [99; 10]); vm_compute; reflexivity.
Defined.

Lemma read_after_close_witness :
  (exists w',
     (s <- GioFileSystem.open sample_uri str_rb ;;
      s' <- GioFileAdapter.close (GioFileSystem.raw_of s) ;;
      GioFileAdapter.read s' (-1)) sample_world
     = (Raise (GError G_CLOSED), w'))
  /\ (exists w',
        (s <- GioFileSystem.open sample_uri str_rb ;;
         s' <- GioFileAdapter.close (GioFileSystem.raw_of s) ;;
         GioFileAdapter.read s' 0) sample_world
        = (Ok [], w')).
Proof.
  split.
  - apply (read_after_close sample_uri str_rb sample_world [97; 10; 98; 10] (-1));
      vm_compute; reflexivity.
  - apply (read_after_close sample_uri str_rb sample_world [97; 10; 98; 10] 0);
      vm_compute; reflexivity.
Defined.

Lemma rename_moves_content_witness :
  exists w',
    (GioFileSystem.rename sample_uri other_uri ;;;
     e <- GioFileSystem.exists_ sample_uri ;;
     sz <- GioFileSystem.getsize other_uri ;;
     Gio.ret (e, sz)) sample_world
    = (Ok (false, 4), w')
    /\ Gio.files w'
       = <[canon other_uri := [97; 10; 98; 10]]>
           (delete (canon sample_uri) (Gio.files sample_world)).
Proof.
  apply (rename_moves_content sample_uri other_uri sample_world [97; 10; 98; 10]);
    [discriminate|vm_compute; reflexivity|vm_compute; reflexivity].
Defined.

Lemma close_twice_witness :
  exists self' w2 w3 closes,
    GioFileAdapter.close sample_reader sample_reader_world = (Ok self', w2)
    /\ Gio.trace w2 = Gio.trace sample_reader_world ++ closes
    /\ GioFileAdapter.close self' w2 = (Ok self', w3)
    /\ Gio.trace w3 = Gio.trace w2 ++ closes.
Proof.
  exact (close_twice (Gio.new_for_uri sample_uri) str_rb sample_world
           sample_reader sample_reader_world sample_reader_init).
Defined.

Lemma text_write_read_witness :
  exists w',
    (s <- GioFileSystem.open sample_uri str_w ;;
     let t := GioUTF8FileAdapter.__init__ (GioFileSystem.raw_of s) in
     n <- GioUTF8FileAdapter.write t [233; 10] ;;
     GioUTF8FileAdapter.seek t 0 SEEK_SET ;;;
     back <- GioUTF8FileAdapter.read t n ;;
     Gio.ret (n, back)) sample_world
    = (Ok (3, [233; 10]), w')
    /\ Gio.files w'
       = <[canon sample_uri := [195; 169; 10] ++ drop 3 [97; 10; 98; 10]]>
           (Gio.files sample_world).
Proof.
  apply (text_write_read sample_uri str_w sample_world [97; 10; 98; 10]
           [233; 10] [195; 169; 10]);
    try (vm_compute; reflexivity).
  repeat constructor; unfold is_code_point; lia.
Defined.
